(** * Hospital dashboard: the filter-and-aggregate callbacks of [app.py]

    The dashboard loads one table at start-up and answers every control
    change with a pure function of (table, control values).  This file
    embeds the table, the start-up aggregates and the five callbacks, and
    proves the properties the specification states about them.

    Conventions of the embedding:
    - the module-level [data] frame is an explicit first argument;
    - a column is a function from a row to a cell;
    - a 64-bit float is a rational, the missing-value marker (NaN) is
      [None] / [CNaN];
    - only Billing Amount can be missing: Gender, Age, Medical Condition,
      Insurance Provider and the admission date have a value in every
      row, as in the data model of the specification;
    - a Plotly figure is the list of traces the Python call builds (the
      arrays handed to the renderer), with its title and bar mode; colour
      sequences are presentation only and are left out. *)

From Stdlib Require Import List String Ascii Bool Arith ZArith QArith Lia.
From Stdlib Require Import Permutation Sorted Qround.
Import ListNotations.
Open Scope string_scope.
Open Scope list_scope.
Open Scope Z_scope.

(** ** Values that reach a callback from a control *)

Module Py.

(** A control value: the scalars a dropdown, a radio item or a request can
    carry: JSON null, a string, an integer or a boolean. *)
Inductive value :=
| None_
| Str (s : string)
| Int (n : Z)
| Bool_ (b : bool).

(** Python truth value: [if v:]. *)
Definition truthy (v : value) : bool :=
  match v with
  | None_ => false
  | Str s => negb (s =? "")%string
  | Int n => negb (n =? 0)
  | Bool_ b => b
  end.

(** Element-wise [column == v] for a column of strings. *)
Definition str_eq (s : string) (v : value) : bool :=
  match v with
  | Str t => (s =? t)%string
  | _ => false
  end.

End Py.

(** ** The record table *)

Record Date := mkDate { d_year : Z; d_month : Z; d_day : Z }.

(** A monthly period, [dt.to_period('M')]. *)
Record Period := mkPeriod { p_year : Z; p_month : Z }.

Definition to_period_M (d : Date) : Period :=
  mkPeriod (d_year d) (d_month d).

Record Row := mkRow {
  Gender : string;
  Age : Z;
  Medical_Condition : string;
  Insurance_Provider : string;
  Billing_Amount : option Q;      (* None: NaN left by errors='coerce' *)
  Date_of_Admission : Date
}.

(** The derived column added by [load_data]. *)
Definition YearMonth (r : Row) : Period :=
  to_period_M (Date_of_Admission r).

Definition DataFrame := list Row.

(** ** Cells and series *)

Inductive Cell :=
| CStr (s : string)
| CInt (n : Z)
| CFloat (q : Q)
| CNaN.

Definition float_cell (o : option Q) : Cell :=
  match o with
  | Some q => CFloat q
  | None => CNaN
  end.

(** The numeric reading of a cell; a histogram counts only these. *)
Definition cell_num (c : Cell) : option Q :=
  match c with
  | CInt n => Some (inject_Z n)
  | CFloat q => Some q
  | _ => None
  end.

Definition col_Gender (r : Row) : Cell := CStr (Gender r).
Definition col_Age (r : Row) : Cell := CInt (Age r).
Definition col_Medical_Condition (r : Row) : Cell := CStr (Medical_Condition r).
Definition col_Insurance_Provider (r : Row) : Cell := CStr (Insurance_Provider r).
Definition col_Billing_Amount (r : Row) : Cell := float_cell (Billing_Amount r).

(** [series <= x]: a comparison with NaN is False. *)
Definition le_threshold (o : option Q) (x : Q) : bool :=
  match o with
  | Some b => Qle_bool b x
  | None => false
  end.

(** ** Plotly Express

    Every [px] call splits the frame into one group per distinct value of
    the [color] column, in order of first appearance, and builds one trace
    per group from the rows of the group, in row order; an empty frame has
    no such group and gives no trace.  Without [color] the whole frame is
    the single group: there is always exactly one trace, with empty arrays
    when the frame has no row. *)

Section Groups.
Context {R : Type}.

Fixpoint add_to_group (k : string) (r : R) (gs : list (string * list R))
  : list (string * list R) :=
  match gs with
  | [] => [(k, [r])]
  | (k', g) :: gs' =>
      if (k =? k')%string then (k', g ++ [r]) :: gs'
      else (k', g) :: add_to_group k r gs'
  end.

Definition group_rows (key : R -> string) (df : list R)
  : list (string * list R) :=
  fold_left (fun gs r => add_to_group (key r) r gs) df [].

Definition px_groups (color : option (R -> string)) (df : list R)
  : list (string * list R) :=
  match color with
  | Some key => group_rows key df
  | None => [("", df)]
  end.
End Groups.

Inductive Trace :=
| Histogram (name : string) (x : list Cell) (nbinsx : Z)
| Pie (labels : list Cell)
| Bar (name : string) (x y : list Cell)
| Scatter (name : string) (x y : list Cell).

Record Figure := mkFigure {
  fig_data : list Trace;
  fig_title : string;
  fig_barmode : string
}.

Section Express.
Context {R : Type}.

(** [px.histogram]: one mark per row; the renderer bins the [x] values. *)
Definition px_histogram (df : list R) (x : R -> Cell) (nbins : Z)
           (color : option (R -> string)) (title : string) : Figure :=
  mkFigure
    (map (fun g => Histogram (fst g) (map x (snd g)) nbins)
         (px_groups color df))
    title "relative".

(** [px.pie]: one sector label per row; the renderer counts the labels. *)
Definition px_pie (df : list R) (names : R -> Cell) (title : string)
  : Figure :=
  mkFigure
    (map (fun g => Pie (map names (snd g))) (px_groups None df))
    title "".

(** [px.bar]: each row of the frame is one rectangular mark. *)
Definition px_bar (df : list R) (x y : R -> Cell)
           (color : option (R -> string)) (barmode title : string)
  : Figure :=
  mkFigure
    (map (fun g => Bar (fst g) (map x (snd g)) (map y (snd g)))
         (px_groups color df))
    title barmode.

(** [px.line]: each row is one vertex of the polyline. *)
Definition px_line (df : list R) (x y : R -> Cell) (title : string)
  : Figure :=
  mkFigure
    (map (fun g => Scatter (fst g) (map x (snd g)) (map y (snd g)))
         (px_groups None df))
    title "".
End Express.

(** What a callback hands back: the literal [{}] or a figure. *)
Inductive Output :=
| EmptyDict
| Fig (f : Figure).

(** ** The callbacks *)

(** [data[data[col] == v]] on a string column. *)
Definition select_eq (col : Row -> string) (v : Py.value) (data : DataFrame)
  : DataFrame :=
  filter (fun r => Py.str_eq (col r) v) data.

Definition update_distribution (data : DataFrame) (selected_gender : Py.value)
  : Output :=
  let filtered_data_frame :=
    if Py.truthy selected_gender
    then select_eq Gender selected_gender data
    else data in
  match filtered_data_frame with
  | [] => EmptyDict
  | _ =>
      Fig (px_histogram filtered_data_frame col_Age 10
             (Some Gender) "Age Distribution by Gender")
  end.

Definition update_medical_condition (data : DataFrame)
           (selected_gender : Py.value) : Output :=
  let filtered_data_frame :=
    if Py.truthy selected_gender
    then select_eq Gender selected_gender data
    else data in
  Fig (px_pie filtered_data_frame col_Medical_Condition
         "Medical Condiiton Distribution").

Definition update_insurance (data : DataFrame) (selected_gender : Py.value)
  : Output :=
  let filtered_data_frame :=
    if Py.truthy selected_gender
    then select_eq Gender selected_gender data
    else data in
  Fig (px_bar filtered_data_frame col_Insurance_Provider col_Billing_Amount
         (Some Medical_Condition) "group"
         "Insurance Provider Price Comparison").

(** The frame [update_billing] charts, after both of its filters. *)
Definition billing_frame (data : DataFrame) (selected_gender : Py.value)
           (slider_value : Q) : DataFrame :=
  let filtered_data_frame :=
    if Py.truthy selected_gender
    then select_eq Gender selected_gender data
    else data in
  filter (fun r => le_threshold (Billing_Amount r) slider_value)
         filtered_data_frame.

Definition update_billing (data : DataFrame) (selected_gender : Py.value)
           (slider_value : Q) : Output :=
  Fig (px_histogram (billing_frame data selected_gender slider_value)
         col_Billing_Amount 10 None "Billing Amount Distribution").

(** *** Admission trends *)

(** Periods compare chronologically. *)
Definition period_ltb (p q : Period) : bool :=
  (p_year p <? p_year q)
  || ((p_year p =? p_year q) && (p_month p <? p_month q)).

Definition period_eqb (p q : Period) : bool :=
  (p_year p =? p_year q) && (p_month p =? p_month q).

Definition period_lt (p q : Period) : Prop :=
  p_year p < p_year q \/ (p_year p = p_year q /\ p_month p < p_month q).

(** [str(period)] for a monthly period: [%Y-%m]. *)
Definition digit (n : Z) : ascii :=
  ascii_of_nat (48 + Z.to_nat (n mod 10)).

Definition pad2 (n : Z) : string :=
  String (digit (n / 10)) (String (digit n) "").

Definition pad4 (n : Z) : string :=
  String (digit (n / 1000)) (String (digit (n / 100)) (pad2 n)).

Definition period_str (p : Period) : string :=
  (pad4 (p_year p) ++ "-" ++ pad2 (p_month p))%string.

(** [groupby(key).size()]: one row per distinct key, keys sorted
    (the default [sort=True]), with the number of rows of the group. *)
Fixpoint count_into (k : Period) (m : list (Period * Z)) : list (Period * Z) :=
  match m with
  | [] => [(k, 1)]
  | (k', c) :: m' =>
      if period_ltb k k' then (k, 1) :: m
      else if period_eqb k k' then (k', c + 1) :: m'
      else (k', c) :: count_into k m'
  end.

Definition groupby_size {R : Type} (key : R -> Period) (df : list R)
  : list (Period * Z) :=
  fold_left (fun m r => count_into (key r) m) df [].

(** [trend_data_frame] before its key column is turned into strings. *)
Definition trend_frame (data : DataFrame) (selected_condition : Py.value)
  : list (Period * Z) :=
  let filtered_data_frame :=
    if Py.truthy selected_condition
    then select_eq Medical_Condition selected_condition data
    else data in
  groupby_size YearMonth filtered_data_frame.

(** [trend_data_frame["YearMonth"].astype(str)]. *)
Definition astype_str (df : list (Period * Z)) : list (string * Z) :=
  map (fun row => (period_str (fst row), snd row)) df.

(** [chart_type == "line"]. *)
Definition is_line (chart_type : Py.value) : bool :=
  match chart_type with
  | Py.Str s => (s =? "line")%string
  | _ => false
  end.

Definition update_admission (data : DataFrame)
           (chart_type selected_condition : Py.value) : Output :=
  let trend_data_frame :=
    astype_str (trend_frame data selected_condition) in
  if is_line chart_type
  then Fig (px_line trend_data_frame
              (fun row => CStr (fst row)) (fun row => CInt (snd row))
              "Admission Trends over Time")
  else Fig (px_bar trend_data_frame
              (fun row => CStr (fst row)) (fun row => CInt (snd row))
              None "relative" "Admission Trends over Time").

(** ** Start-up aggregates *)

Definition num_records (data : DataFrame) : nat := List.length data.

(** A float column with its NaN dropped ([skipna=True]). *)
Fixpoint dropna (s : list (option Q)) : list Q :=
  match s with
  | [] => []
  | Some q :: s' => q :: dropna s'
  | None :: s' => dropna s'
  end.

Definition Qsum (l : list Q) : Q := fold_right Qplus 0%Q l.

Fixpoint insert_sorted (q : Q) (l : list Q) : list Q :=
  match l with
  | [] => [q]
  | h :: t => if Qle_bool q h then q :: l else h :: insert_sorted q t
  end.

Definition sort_values (l : list Q) : list Q :=
  fold_right insert_sorted [] l.

Definition of_nat_Q (n : nat) : Q := inject_Z (Z.of_nat n).

(** The aggregates below are taken in exact rational arithmetic, where the
    program rounds to doubles: they fix which values an aggregate reads and
    how it combines them, and say nothing about the last digits. *)

(** [Series.mean()]: NaN for a column without a value. *)
Definition series_mean (s : list (option Q)) : option Q :=
  match dropna s with
  | [] => None
  | v => Some (Qsum v / of_nat_Q (List.length v))%Q
  end.

Definition series_min (s : list (option Q)) : option Q :=
  match sort_values (dropna s) with
  | [] => None
  | h :: _ => Some h
  end.

Definition series_max (s : list (option Q)) : option Q :=
  match rev (sort_values (dropna s)) with
  | [] => None
  | h :: _ => Some h
  end.

(** [Series.quantile(p)], linear interpolation between the two order
    statistics around position [p * (n - 1)]. *)
Definition series_quantile (s : list (option Q)) (p : Q) : option Q :=
  let v := sort_values (dropna s) in
  match v with
  | [] => None
  | h :: _ =>
      let pos := (p * of_nat_Q (List.length v - 1)%nat)%Q in
      let lo := Qfloor pos in
      let hi := Qceiling pos in
      let vlo := nth (Z.to_nat lo) v h in
      let vhi := nth (Z.to_nat hi) v h in
      Some (vlo + (vhi - vlo) * (pos - inject_Z lo))%Q
  end.

Definition series_median (s : list (option Q)) : option Q :=
  let v := sort_values (dropna s) in
  match v with
  | [] => None
  | h :: _ =>
      let n := List.length v in
      if Nat.even n
      then Some ((nth (n / 2 - 1)%nat v h + nth (n / 2)%nat v h) / 2)%Q
      else Some (nth (n / 2)%nat v h)
  end.


(** Python [int(x)]: truncation towards zero; raises on NaN. *)
Definition py_int (o : option Q) : option Z :=
  match o with
  | Some q => Some (Z.quot (Qnum q) (Zpos (Qden q)))
  | None => None
  end.

(** The keys of a dict built by inserting [ks] in order. *)
Fixpoint dict_keys (ks : list Z) (seen : list Z) : list Z :=
  match ks with
  | [] => []
  | k :: ks' =>
      if existsb (Z.eqb k) seen then dict_keys ks' seen
      else k :: dict_keys ks' (k :: seen)
  end.

Fixpoint sequence {A : Type} (l : list (option A)) : option (list A) :=
  match l with
  | [] => Some []
  | None :: _ => None
  | Some a :: l' =>
      match sequence l' with
      | Some r => Some (a :: r)
      | None => None
      end
  end.

(** The [billing-slider] properties computed from the table.  A mark's
    label is its key printed with a dollar sign, so the keys stand for the
    dict; [None] for the marks is the [ValueError] of [int(nan)]. *)
Record Slider := mkSlider {
  slider_min : option Q;
  slider_max : option Q;
  slider_value : option Q;
  slider_marks : option (list Z);
  slider_step : Z
}.

Definition billing_slider (data : DataFrame) : Slider :=
  let s := map Billing_Amount data in
  mkSlider
    (series_min s)
    (series_max s)
    (series_median s)
    (option_map (fun ks => dict_keys ks [])
       (sequence
          (map (fun p => py_int (series_quantile s p))
               [0; 1 # 4; 1 # 2; 3 # 4; 1]%Q)))
    100.

(** * Reading the results *)

(** ** Reading a figure *)

Definition trace_size (t : Trace) : nat :=
  match t with
  | Histogram _ x _ => List.length x
  | Pie labels => List.length labels
  | Bar _ x _ => List.length x
  | Scatter _ x _ => List.length x
  end.

(** The number of marks (bars, sectors, vertices, binned values) a callback
    result holds; [0] is an empty result. *)
Definition output_marks (o : Output) : nat :=
  match o with
  | EmptyDict => 0%nat
  | Fig f => list_sum (map trace_size (fig_data f))
  end.

Inductive TraceKind := KHistogram | KPie | KBar | KScatter.

Definition trace_kind (t : Trace) : TraceKind :=
  match t with
  | Histogram _ _ _ => KHistogram
  | Pie _ => KPie
  | Bar _ _ _ => KBar
  | Scatter _ _ _ => KScatter
  end.

(** The (x, y) pairs of a trace, in the order they are drawn. *)
Definition trace_points (t : Trace) : list (Cell * Cell) :=
  match t with
  | Bar _ x y => combine x y
  | Scatter _ x y => combine x y
  | _ => []
  end.

Definition output_points (o : Output) : list (Cell * Cell) :=
  match o with
  | EmptyDict => []
  | Fig f => List.concat (map trace_points (fig_data f))
  end.

(** The values a histogram trace bins: its numeric [x] cells. *)
Definition hist_values (t : Trace) : list Q :=
  match t with
  | Histogram _ x _ => dropna (map cell_num x)
  | _ => []
  end.

(** The rows a histogram counts, over all of its traces. *)
Definition hist_total (o : Output) : nat :=
  match o with
  | EmptyDict => 0%nat
  | Fig f => list_sum (map (fun t => List.length (hist_values t)) (fig_data f))
  end.

(** ** The selections of the controls *)

(** The subset a gender control selects. *)
Definition gender_subset (data : DataFrame) (selected_gender : Py.value)
  : DataFrame :=
  if Py.truthy selected_gender
  then select_eq Gender selected_gender data
  else data.

(** [v] occurs in the Gender column. *)
Definition in_Gender_column (data : DataFrame) (v : Py.value) : Prop :=
  In v (map (fun r => Py.Str (Gender r)) data).

(** The rows a condition control selects. *)
Definition condition_subset (data : DataFrame) (selected_condition : Py.value)
  : DataFrame :=
  if Py.truthy selected_condition
  then select_eq Medical_Condition selected_condition data
  else data.

(** The rows of a frame that fall into month [p]. *)
Definition rows_in_month (p : Period) (df : DataFrame) : DataFrame :=
  filter (fun r => period_eqb p (YearMonth r)) df.

(** The count a size table records for key [k]. *)
Definition size_of (k : Period) (m : list (Period * Z)) : Z :=
  fold_right (fun kc acc => if period_eqb k (fst kc) then snd kc + acc else acc)
             0 m.

(** A row with a billing value. *)
Definition has_billing (r : Row) : bool :=
  match Billing_Amount r with
  | Some _ => true
  | None => false
  end.

(** ** Properties of a grouping *)

Definition groups_size {R : Type} (gs : list (string * list R)) : nat :=
  list_sum (map (fun g => List.length (snd g)) gs).

(** What the groups of a frame are: distinct keys, each with exactly the
    rows of that key in row order, none empty, no key of the frame left
    out. *)
Record grouping {R : Type} (key : R -> string) (df : list R)
       (gs : list (string * list R)) : Prop := {
  grouping_keys : NoDup (map fst gs);
  grouping_rows : forall k g, In (k, g) gs ->
      g = filter (fun r => (key r =? k)%string) df /\ g <> [];
  grouping_total : forall r, In r df -> In (key r) (map fst gs)
}.

(** ** Binning the values of a histogram

    [px.histogram] bins nothing: it hands the renderer the values and
    [nbins], and the bars are formed when the chart is drawn.  What can be
    said of the figure is said for an arbitrary assignment [b] of the
    values to bins. *)


(** ** The binned structure the specification describes for the age
    distribution

    These definitions follow the words of the specification, not code of
    the program: per Gender, the counts of ten bins of equal width across
    the observed Age range of the selection, the last bin closed on the
    right.  They are what the figure of [update_distribution] is compared
    with. *)

Definition Qmin_list (l : list Q) : Q :=
  match l with
  | [] => 0%Q
  | h :: t => fold_right (fun a b => if Qle_bool a b then a else b) h t
  end.

Definition Qmax_list (l : list Q) : Q :=
  match l with
  | [] => 0%Q
  | h :: t => fold_right (fun a b => if Qle_bool a b then b else a) h t
  end.

(** The bin, from [0] to [n - 1], of value [x] over the range [lo, hi]. *)
Definition spec_equal_width_bin (lo hi : Q) (n : nat) (x : Q) : nat :=
  if Qeq_bool lo hi then 0%nat
  else Z.to_nat
         (Z.min (Z.of_nat n - 1)
                (Qfloor ((x - lo) * inject_Z (Z.of_nat n) / (hi - lo))%Q)).

(** The left edge of bin [i]; bin [i] ends where bin [i + 1] starts. *)
Definition spec_bin_edge (lo hi : Q) (n i : nat) : Q :=
  (lo + inject_Z (Z.of_nat i) * ((hi - lo) / inject_Z (Z.of_nat n)))%Q.



(** ** The chart of means the specification describes for the insurance
    comparison: per Medical Condition one series, in it one bar per
    Insurance Provider, as high as the mean Billing Amount of the rows of
    that (provider, condition) pair. *)

Definition mean_billing_bars (df : DataFrame) : list Trace :=
  map (fun cg =>
         let by_provider := group_rows Insurance_Provider (snd cg) in
         Bar (fst cg)
             (map (fun pg => CStr (fst pg)) by_provider)
             (map (fun pg =>
                     float_cell (series_mean (map Billing_Amount (snd pg))))
                  by_provider))
      (group_rows Medical_Condition df).

(** ** A sample table *)

Definition sample_table : DataFrame :=
  [ mkRow "Female" 34 "Diabetes" "Aetna" (Some 200%Q) (mkDate 2021 3 5);
    mkRow "Male" 61 "Diabetes" "Aetna" None (mkDate 2021 3 20);
    mkRow "Male" 47 "Asthma" "Cigna" (Some 450%Q) (mkDate 2020 11 2);
    mkRow "Female" 52 "Diabetes" "Aetna" (Some 600%Q) (mkDate 2021 1 17) ].

(** * The controls of the layout *)

(** [Series.unique()]: the distinct values, in order of first appearance. *)
Definition unique (s : list string) : list string :=
  fold_left
    (fun seen v => if existsb (String.eqb v) seen then seen else seen ++ [v])
    s [].

Record DropdownOption := mkOption { opt_label : string; opt_value : string }.

(** A dropdown or a group of radio items: its options and initial value. *)
Record Choice := mkChoice {
  choice_options : list DropdownOption;
  choice_value : Py.value
}.

(** [dcc.Dropdown(id="gender-filter", ...)]. *)
Definition gender_filter (data : DataFrame) : Choice :=
  mkChoice (map (fun gender => mkOption gender gender)
                (unique (map Gender data)))
           Py.None_.

(** [dcc.Dropdown(id="condition-filter", ...)]. *)
Definition condition_filter (data : DataFrame) : Choice :=
  mkChoice (map (fun condition => mkOption condition condition)
                (unique (map Medical_Condition data)))
           Py.None_.

(** [dcc.RadioItems(id="chart-type", ...)]. *)
Definition chart_type_items : Choice :=
  mkChoice [mkOption "Line Chart" "line"; mkOption "Bar Chart" "bar"]
           (Py.Str "line").

(** The values a control offers. *)
Definition offered (c : Choice) : list string :=
  map opt_value (choice_options c).

(** ** Further readings of a figure *)

(** The legend entry of a trace. *)
Definition trace_name (t : Trace) : string :=
  match t with
  | Histogram name _ _ => name
  | Pie _ => ""
  | Bar name _ _ => name
  | Scatter name _ _ => name
  end.

Definition series_names (o : Output) : list string :=
  match o with
  | EmptyDict => []
  | Fig f => map trace_name (fig_data f)
  end.

(** The sum of the integer heights of the points of a chart. *)
Definition points_total (o : Output) : Z :=
  fold_right (fun p acc => match snd p with CInt n => n + acc | _ => acc end)
             0 (output_points o).

(** All the values a histogram figure bins. *)
Definition output_values (o : Output) : list Q :=
  match o with
  | EmptyDict => []
  | Fig f => flat_map hist_values (fig_data f)
  end.

(** The labels of a pie chart, one per sector element. *)
Definition pie_labels (o : Output) : list Cell :=
  match o with
  | EmptyDict => []
  | Fig f =>
      flat_map (fun t => match t with Pie labels => labels | _ => [] end)
               (fig_data f)
  end.

(** The label cell reads [c]. *)
Definition label_is (c : string) (l : Cell) : bool :=
  match l with
  | CStr s => (s =? c)%string
  | _ => false
  end.

(** A calendar month of a four-digit year. *)
Definition valid_period (p : Period) : Prop :=
  0 <= p_year p <= 9999 /\ 1 <= p_month p <= 12.

(** * Proofs *)

(** ** Facts about grouping *)

Lemma filter_none {A : Type} (f : A -> bool) (l : list A) :
  (forall x, In x l -> f x = false) -> filter f l = [].
Proof.
  induction l as [| a l IH]; simpl; intros H; [reflexivity|].
  rewrite (H a (or_introl eq_refl)). apply IH. intros x Hx. apply H. now right.
Qed.

Section GroupFacts.
Context {R : Type}.
Implicit Types (gs : list (string * list R)) (df : list R).

Lemma add_to_group_size k r gs :
  groups_size (add_to_group k r gs) = S (groups_size gs).
Proof.
  unfold groups_size.
  induction gs as [| [k' g] gs IH]; simpl; [reflexivity|].
  destruct (k =? k')%string; simpl.
  - rewrite length_app; simpl; lia.
  - rewrite IH; lia.
Qed.

Lemma fold_groups_size (key : R -> string) df gs :
  groups_size (fold_left (fun gs r => add_to_group (key r) r gs) df gs)
  = (groups_size gs + List.length df)%nat.
Proof.
  revert gs; induction df as [| r df IH]; intros gs; simpl; [lia|].
  rewrite IH, add_to_group_size; lia.
Qed.

Lemma group_rows_size (key : R -> string) df :
  groups_size (group_rows key df) = List.length df.
Proof. unfold group_rows; now rewrite fold_groups_size. Qed.

Lemma px_groups_size color df :
  groups_size (px_groups color df) = List.length df.
Proof.
  destruct color as [key |]; [apply group_rows_size |].
  unfold groups_size. simpl. lia.
Qed.

(** Without [color]: one group holding the whole frame, also when empty. *)
Lemma px_groups_None df : px_groups None df = [("", df)].
Proof. reflexivity. Qed.

Lemma add_to_group_fst k r gs :
  map fst (add_to_group k r gs)
  = if existsb (String.eqb k) (map fst gs) then map fst gs
    else map fst gs ++ [k].
Proof.
  induction gs as [| [k' g] gs IH]; simpl; [reflexivity|].
  destruct (k =? k')%string; simpl; [reflexivity|].
  rewrite IH. now destruct (existsb _ _).
Qed.

Lemma existsb_eqb_In k (l : list string) :
  existsb (String.eqb k) l = true <-> In k l.
Proof.
  rewrite existsb_exists. split.
  - intros [x [Hin Heq]]. apply String.eqb_eq in Heq. now subst.
  - intros Hin. exists k. split; [assumption | apply String.eqb_refl].
Qed.

Lemma add_to_group_In k r gs k0 g0 :
  NoDup (map fst gs) ->
  In (k0, g0) (add_to_group k r gs) ->
  (k0 = k /\ (g0 = [r] /\ ~ In k (map fst gs)
              \/ exists g, In (k, g) gs /\ g0 = g ++ [r]))
  \/ (k0 <> k /\ In (k0, g0) gs).
Proof.
  induction gs as [| [k' g] gs IH]; simpl; intros Hnd Hin.
  - destruct Hin as [Heq | []]. inversion Heq; subst. left; split; auto.
  - inversion Hnd as [| ? ? Hnotin Hnd']; subst.
    destruct (k =? k')%string eqn:E.
    + apply String.eqb_eq in E; subst k'.
      destruct Hin as [Heq | Hin].
      * inversion Heq; subst. left; split; auto. right. exists g; auto.
      * right. split; [| now right].
        intros ->. apply Hnotin. now apply (in_map fst) in Hin.
    + apply String.eqb_neq in E.
      destruct Hin as [Heq | Hin].
      * inversion Heq; subst. right. split; [congruence | now left].
      * destruct (IH Hnd' Hin) as [[-> [[-> Hn] | [g' [Hg ->]]]] | [Hne Hg]].
        -- left; split; auto. left; split; auto. intros [H | H]; auto.
        -- left; split; auto. right. exists g'; auto.
        -- right; auto.
Qed.

Lemma grouping_step (key : R -> string) df gs r :
  grouping key df gs ->
  grouping key (df ++ [r]) (add_to_group (key r) r gs).
Proof.
  intros [Hnd Hrows Htot]. split.
  - rewrite add_to_group_fst.
    destruct (existsb _ _) eqn:E; [assumption|].
    apply NoDup_app; [assumption | repeat constructor; intros [] |].
    intros x Hx [<- | []].
    apply existsb_eqb_In in Hx. congruence.
  - intros k g Hin. rewrite filter_app; simpl.
    destruct (add_to_group_In _ _ _ _ _ Hnd Hin)
      as [[-> [[-> Hn] | [g' [Hg ->]]]] | [Hne Hg]].
    + rewrite String.eqb_refl. split; [| discriminate].
      replace (filter _ df) with (@nil R); [reflexivity|].
      symmetry. apply filter_none. intros x Hx.
      destruct (key x =? key r)%string eqn:E; [| reflexivity].
      apply String.eqb_eq in E. exfalso. apply Hn. rewrite <- E. now apply Htot.
    + rewrite String.eqb_refl. destruct (Hrows _ _ Hg) as [-> _].
      split; [reflexivity|]. intros H. now apply app_eq_nil in H as [_ H].
    + destruct (Hrows _ _ Hg) as [-> Hne'].
      apply String.eqb_neq in Hne. rewrite String.eqb_sym in Hne.
      rewrite Hne, app_nil_r. auto.
  - intros x Hx. rewrite add_to_group_fst.
    apply in_app_or in Hx as [Hx | [<- | []]].
    + apply Htot in Hx. destruct (existsb _ _); [| apply in_or_app]; auto.
    + destruct (existsb _ _) eqn:E.
      * now apply existsb_eqb_In.
      * apply in_or_app; right; now left.
Qed.

Lemma group_rows_grouping (key : R -> string) df :
  grouping key df (group_rows key df).
Proof.
  unfold group_rows.
  assert (H : forall rest pre gs, grouping key pre gs ->
    grouping key (pre ++ rest)
      (fold_left (fun gs r => add_to_group (key r) r gs) rest gs)).
  { induction rest as [| r rest IH]; intros pre gs Hg; simpl.
    - now rewrite app_nil_r.
    - replace (pre ++ r :: rest) with ((pre ++ [r]) ++ rest)
        by (now rewrite <- app_assoc).
      apply IH. now apply grouping_step. }
  apply (H df [] []). split; simpl; [constructor | intros ? ? [] | intros ? []].
Qed.
End GroupFacts.

(** ** The gender filter *)

Lemma select_eq_absent data v :
  ~ in_Gender_column data v -> select_eq Gender v data = [].
Proof.
  intros Habs. apply filter_none. intros r Hr.
  destruct v as [| s | n | b]; simpl; try reflexivity.
  destruct (Gender r =? s)%string eqn:E; [| reflexivity].
  apply String.eqb_eq in E. exfalso. apply Habs.
  unfold in_Gender_column. rewrite <- E.
  now apply (in_map (fun r => Py.Str (Gender r))).
Qed.


Lemma px_histogram_marks {R : Type} (df : list R) x nbins color title :
  output_marks (Fig (px_histogram df x nbins color title)) = List.length df.
Proof.
  unfold output_marks, px_histogram, fig_data. rewrite map_map. rewrite <- (px_groups_size color df).
  unfold groups_size. f_equal. apply map_ext. intros g. cbn [trace_size].
  apply length_map.
Qed.

Lemma px_pie_marks {R : Type} (df : list R) names title :
  output_marks (Fig (px_pie df names title)) = List.length df.
Proof.
  unfold output_marks, px_pie, fig_data. rewrite map_map. rewrite <- (px_groups_size None df).
  unfold groups_size. f_equal. apply map_ext. intros g. cbn [trace_size].
  apply length_map.
Qed.

Lemma px_bar_marks {R : Type} (df : list R) x y color barmode title :
  output_marks (Fig (px_bar df x y color barmode title)) = List.length df.
Proof.
  unfold output_marks, px_bar, fig_data. rewrite map_map. rewrite <- (px_groups_size color df).
  unfold groups_size. f_equal. apply map_ext. intros g. cbn [trace_size].
  apply length_map.
Qed.

Lemma px_line_marks {R : Type} (df : list R) x y title :
  output_marks (Fig (px_line df x y title)) = List.length df.
Proof.
  unfold output_marks, px_line, fig_data. rewrite map_map. rewrite <- (px_groups_size None df).
  unfold groups_size. f_equal. apply map_ext. intros g. cbn [trace_size].
  apply length_map.
Qed.

Lemma update_distribution_marks data g :
  output_marks (update_distribution data g)
  = List.length (gender_subset data g).
Proof.
  unfold update_distribution. fold (gender_subset data g).
  destruct (gender_subset data g) as [| r rs] eqn:E; [reflexivity|].
  now rewrite px_histogram_marks.
Qed.

(** C7.  Age distribution: when the rows selected by the gender control are
    none, the callback returns the literal empty dict, its explicit
    "no chart" result, and not a figure. *)
Theorem age_distribution_no_chart data selected_gender :
  gender_subset data selected_gender = [] ->
  update_distribution data selected_gender = EmptyDict.
Proof.
  intros H. unfold update_distribution. fold (gender_subset data selected_gender).
  now rewrite H.
Qed.

Lemma age_distribution_no_chart_witness :
  gender_subset sample_table (Py.Str "Other") = []
  /\ update_distribution sample_table (Py.Str "Other") = EmptyDict.
Proof.
  split; [reflexivity |].
  apply (age_distribution_no_chart sample_table (Py.Str "Other")).
  reflexivity.
Defined.



(** C2 (amended).  For a truthy gender value that does not occur in the
    Gender column, every gender-filtered callback returns an empty result:
    the age distribution the empty dict, the insurance comparison a figure
    without a trace, the condition pie and the billing histogram a figure
    whose single trace has empty arrays; none holds a mark. *)
Theorem absent_gender_empty_result data g slider_value :
  Py.truthy g = true ->
  ~ in_Gender_column data g ->
  update_distribution data g = EmptyDict
  /\ update_medical_condition data g
     = Fig (mkFigure [Pie []] "Medical Condiiton Distribution" "")
  /\ update_insurance data g
     = Fig (mkFigure [] "Insurance Provider Price Comparison" "group")
  /\ update_billing data g slider_value
     = Fig (mkFigure [Histogram "" [] 10]
              "Billing Amount Distribution" "relative")
  /\ output_marks (update_distribution data g) = 0%nat
  /\ output_marks (update_medical_condition data g) = 0%nat
  /\ output_marks (update_insurance data g) = 0%nat
  /\ output_marks (update_billing data g slider_value) = 0%nat.
Proof.
  intros Ht Habs.
  assert (Hs := select_eq_absent data g Habs).
  unfold update_distribution, update_medical_condition, update_insurance,
    update_billing, billing_frame.
  rewrite Ht, Hs. repeat split.
Qed.

Lemma absent_gender_empty_result_witness :
  Py.truthy (Py.Str "Other") = true
  /\ ~ in_Gender_column sample_table (Py.Str "Other")
  /\ update_distribution sample_table (Py.Str "Other") = EmptyDict
  /\ output_marks (update_billing sample_table (Py.Str "Other") 1000%Q) = 0%nat.
Proof.
  assert (Habs : ~ in_Gender_column sample_table (Py.Str "Other")).
  { unfold in_Gender_column; simpl. intros H.
    repeat (destruct H as [H | H]; [discriminate H |]). exact H. }
  split; [reflexivity | split; [exact Habs |]].
  pose proof (absent_gender_empty_result sample_table (Py.Str "Other")
                1000%Q eq_refl Habs) as H.
  split; apply H.
Defined.

(** C2 (as stated) fails: the empty string occurs nowhere in the Gender
    column of the sample table, yet each of the four callbacks answers it
    with a populated chart. *)
Lemma absent_falsy_gender_populated :
  ~ in_Gender_column sample_table (Py.Str "")
  /\ output_marks (update_distribution sample_table (Py.Str "")) = 4%nat
  /\ output_marks (update_medical_condition sample_table (Py.Str "")) = 4%nat
  /\ output_marks (update_insurance sample_table (Py.Str "")) = 4%nat
  /\ output_marks (update_billing sample_table (Py.Str "") 1000%Q) = 3%nat.
Proof.
  split; [| repeat split].
  unfold in_Gender_column; simpl. intros H.
  repeat (destruct H as [H | H]; [discriminate H |]). exact H.
Qed.

(** ** Billing distribution *)

Lemma le_threshold_spec o x :
  le_threshold o x = true <-> exists b, o = Some b /\ (b <= x)%Q.
Proof.
  destruct o as [b |]; simpl.
  - rewrite Qle_bool_iff. split.
    + intros H. now exists b.
    + intros [b' [Heq H]]. now inversion Heq; subst.
  - split; [discriminate | intros [b [H _]]; discriminate].
Qed.

Lemma le_threshold_mono o x y :
  (x <= y)%Q -> le_threshold o x = true -> le_threshold o y = true.
Proof.
  intros Hxy H. apply le_threshold_spec in H as [b [-> Hb]].
  apply le_threshold_spec. exists b. split; [reflexivity|].
  now apply Qle_trans with x.
Qed.

Lemma filter_length_mono {A : Type} (f g : A -> bool) (l : list A) :
  (forall a, f a = true -> g a = true) ->
  (List.length (filter f l) <= List.length (filter g l))%nat.
Proof.
  intros Hfg. induction l as [| a l IH]; simpl; [lia|].
  destruct (f a) eqn:Ef.
  - rewrite (Hfg a Ef). simpl. lia.
  - destruct (g a); simpl; lia.
Qed.

Lemma dropna_billing_cells (df : DataFrame) x :
  (forall r, In r df -> le_threshold (Billing_Amount r) x = true) ->
  List.length (dropna (map cell_num (map col_Billing_Amount df)))
  = List.length df.
Proof.
  induction df as [| r df IH]; simpl; intros H; [reflexivity|].
  destruct (proj1 (le_threshold_spec _ _) (H r (or_introl eq_refl)))
    as [b [Hb _]].
  unfold col_Billing_Amount at 1. rewrite Hb. simpl.
  f_equal. apply IH. intros r' Hr'. apply H. now right.
Qed.

Lemma billing_frame_below data g x r :
  In r (billing_frame data g x) ->
  le_threshold (Billing_Amount r) x = true.
Proof. unfold billing_frame. intros H. now apply filter_In in H. Qed.

Lemma px_histogram_total {R : Type} (df : list R) x nbins title :
  hist_total (Fig (px_histogram df x nbins None title))
  = List.length (dropna (map cell_num (map x df))).
Proof.
  unfold px_histogram, hist_total, fig_data. rewrite px_groups_None.
  cbn [map hist_values fst snd]. unfold list_sum, fold_right.
  apply Nat.add_0_r.
Qed.

Lemma update_billing_total data g x :
  hist_total (update_billing data g x)
  = List.length (billing_frame data g x).
Proof.
  unfold update_billing. rewrite px_histogram_total.
  apply dropna_billing_cells with x. apply billing_frame_below.
Qed.

(** C3.  Billing distribution: the gender filter is applied first (the rows
    of the selected gender, or the full table without a selection), and of
    that subset exactly the rows with a Billing Amount at most the threshold
    are kept, in table order; a row with a missing amount never passes.
    The histogram is drawn from the kept rows. *)
Theorem billing_filters_gender_then_threshold data selected_gender slider_value :
  billing_frame data selected_gender slider_value
  = filter (fun r => le_threshold (Billing_Amount r) slider_value)
           (gender_subset data selected_gender)
  /\ gender_subset data Py.None_ = data
  /\ (forall s, s <> "" ->
        gender_subset data (Py.Str s)
        = filter (fun r => (Gender r =? s)%string) data)
  /\ (forall r, In r (billing_frame data selected_gender slider_value) <->
        In r (gender_subset data selected_gender)
        /\ exists b, Billing_Amount r = Some b /\ (b <= slider_value)%Q)
  /\ (forall r, Billing_Amount r = None ->
        ~ In r (billing_frame data selected_gender slider_value))
  /\ update_billing data selected_gender slider_value
     = Fig (px_histogram
              (filter (fun r => le_threshold (Billing_Amount r) slider_value)
                      (gender_subset data selected_gender))
              col_Billing_Amount 10 None "Billing Amount Distribution")
  /\ hist_total (update_billing data selected_gender slider_value)
     = List.length (billing_frame data selected_gender slider_value).
Proof.
  split; [reflexivity|]. split; [reflexivity|]. split.
  { intros s Hs. unfold gender_subset. simpl.
    apply String.eqb_neq in Hs. now rewrite Hs. }
  split.
  { intros r. unfold billing_frame. fold (gender_subset data selected_gender).
    rewrite filter_In, le_threshold_spec. reflexivity. }
  split.
  { intros r Hr Hin. apply billing_frame_below in Hin.
    rewrite Hr in Hin. discriminate. }
  split; [reflexivity | apply update_billing_total].
Qed.

(** C4.  Billing distribution is monotone in the threshold: for a fixed
    table and gender value, the rows the histogram counts at a threshold
    are at most those it counts at any larger threshold. *)
Theorem billing_count_monotone data selected_gender t1 t2 :
  (t1 <= t2)%Q ->
  (hist_total (update_billing data selected_gender t1)
   <= hist_total (update_billing data selected_gender t2))%nat.
Proof.
  intros Hle. rewrite !update_billing_total. unfold billing_frame.
  apply filter_length_mono. intros r. now apply le_threshold_mono.
Qed.

Lemma billing_count_monotone_witness :
  (200 <= 450)%Q
  /\ (hist_total (update_billing sample_table Py.None_ 200%Q)
      <= hist_total (update_billing sample_table Py.None_ 450%Q))%nat.
Proof.
  assert (H : (200 <= 450)%Q) by (unfold Qle; simpl; lia).
  split; [exact H |].
  exact (billing_count_monotone sample_table Py.None_ 200%Q 450%Q H).
Defined.

(** ** Admission trends: the chart type *)

Lemma is_line_spec chart_type :
  is_line chart_type = true <-> chart_type = Py.Str "line".
Proof.
  destruct chart_type as [| s | n | b]; simpl;
    try (split; [discriminate | intros H; discriminate H]).
  rewrite String.eqb_eq. split; [intros -> | intros H; inversion H]; reflexivity.
Qed.

Lemma px_bar_kind {R : Type} (df : list R) x y color barmode title :
  Forall (fun t => trace_kind t = KBar)
         (fig_data (px_bar df x y color barmode title)).
Proof.
  unfold px_bar, fig_data. apply Forall_map. now apply Forall_forall.
Qed.

Lemma px_line_kind {R : Type} (df : list R) x y title :
  Forall (fun t => trace_kind t = KScatter)
         (fig_data (px_line df x y title)).
Proof.
  unfold px_line, fig_data. apply Forall_map. now apply Forall_forall.
Qed.

(** C6.  Admission trends: every chart-type value other than ["line"]
    (["bar"], null, or any value not offered by the control) yields the bar
    figure of the trend frame, a result and not an error; ["line"] yields
    the line figure. *)
Theorem admission_chart_type_fallback data chart_type selected_condition :
  chart_type <> Py.Str "line" ->
  (exists f,
      update_admission data chart_type selected_condition = Fig f
      /\ f = px_bar (astype_str (trend_frame data selected_condition))
               (fun row => CStr (fst row)) (fun row => CInt (snd row))
               None "relative" "Admission Trends over Time"
      /\ Forall (fun t => trace_kind t = KBar) (fig_data f))
  /\ update_admission data chart_type selected_condition
     = update_admission data (Py.Str "bar") selected_condition
  /\ (exists f,
      update_admission data (Py.Str "line") selected_condition = Fig f
      /\ f = px_line (astype_str (trend_frame data selected_condition))
               (fun row => CStr (fst row)) (fun row => CInt (snd row))
               "Admission Trends over Time"
      /\ Forall (fun t => trace_kind t = KScatter) (fig_data f)).
Proof.
  intros Hne.
  assert (Hl : is_line chart_type = false).
  { destruct (is_line chart_type) eqn:E; [| reflexivity].
    apply is_line_spec in E. contradiction. }
  unfold update_admission. rewrite Hl. simpl is_line. cbv iota.
  split; [| split; [reflexivity |]].
  - eexists. split; [reflexivity |]. split; [reflexivity | apply px_bar_kind].
  - eexists. split; [reflexivity |]. split; [reflexivity | apply px_line_kind].
Qed.

Lemma admission_chart_type_fallback_witness :
  Py.Str "scatter" <> Py.Str "line"
  /\ update_admission sample_table (Py.Str "scatter") Py.None_
     = update_admission sample_table (Py.Str "bar") Py.None_.
Proof.
  assert (H : Py.Str "scatter" <> Py.Str "line") by discriminate.
  split; [exact H |].
  apply (admission_chart_type_fallback sample_table (Py.Str "scatter")
           Py.None_ H).
Defined.

(** ** Admission trends: grouping by month *)

Lemma period_ltb_spec p q : period_ltb p q = true <-> period_lt p q.
Proof.
  unfold period_ltb, period_lt.
  rewrite orb_true_iff, andb_true_iff, !Z.ltb_lt, Z.eqb_eq. reflexivity.
Qed.

Lemma period_eqb_spec p q : period_eqb p q = true <-> p = q.
Proof.
  unfold period_eqb. rewrite andb_true_iff, !Z.eqb_eq.
  destruct p, q; simpl. split.
  - intros [-> ->]; reflexivity.
  - intros H; inversion H; auto.
Qed.

Lemma period_ltb_false p q :
  period_ltb p q = false <-> ~ period_lt p q.
Proof.
  rewrite <- period_ltb_spec. destruct (period_ltb p q); split; intros H;
    try discriminate; try reflexivity; now elim H.
Qed.

Lemma period_eqb_false p q : period_eqb p q = false <-> p <> q.
Proof.
  rewrite <- period_eqb_spec. destruct (period_eqb p q); split; intros H;
    try discriminate; try reflexivity; now elim H.
Qed.

Lemma period_lt_trans p q r : period_lt p q -> period_lt q r -> period_lt p r.
Proof. unfold period_lt. lia. Qed.

Lemma period_lt_irrefl p : ~ period_lt p p.
Proof. unfold period_lt. lia. Qed.

Lemma period_total p q : period_lt p q \/ p = q \/ period_lt q p.
Proof.
  destruct p as [y m], q as [y' m']; unfold period_lt; simpl.
  destruct (Z.lt_trichotomy y y') as [H | [H | H]]; [lia | | lia].
  destruct (Z.lt_trichotomy m m') as [H' | [H' | H']]; [lia | | lia].
  right; left; congruence.
Qed.

Lemma period_eqb_false_fields p q :
  period_eqb p q = false ->
  p_year p <> p_year q \/ p_month p <> p_month q.
Proof.
  unfold period_eqb. rewrite andb_false_iff, !Z.eqb_neq. trivial.
Qed.

(** Turn the outcome of the key tests into facts about the order. *)
Ltac period_facts :=
  repeat match goal with
  | H : period_ltb _ _ = true |- _ => apply period_ltb_spec in H
  | H : period_ltb _ _ = false |- _ => apply period_ltb_false in H
  | H : period_eqb _ _ = true |- _ => apply period_eqb_spec in H; subst
  | H : period_eqb _ _ = false |- _ => apply period_eqb_false_fields in H
  end.

Ltac period_absurd := exfalso; unfold period_lt in *; lia.

Lemma count_into_comm a b m :
  count_into a (count_into b m) = count_into b (count_into a m).
Proof.
  induction m as [| [k c] m IH]; simpl.
  - destruct (period_ltb a b) eqn:Eab, (period_ltb b a) eqn:Eba;
      destruct (period_eqb a b) eqn:Fab, (period_eqb b a) eqn:Fba;
      period_facts; try reflexivity; try period_absurd.
  - destruct (period_ltb a k) eqn:Eak, (period_ltb b k) eqn:Ebk;
      destruct (period_eqb a k) eqn:Fak, (period_eqb b k) eqn:Fbk; simpl;
      rewrite ?Eak, ?Ebk, ?Fak, ?Fbk;
      try (destruct (period_ltb a b) eqn:Eab);
      try (destruct (period_ltb b a) eqn:Eba);
      try (destruct (period_eqb a b) eqn:Fab);
      try (destruct (period_eqb b a) eqn:Fba);
      period_facts; rewrite ?IH;
      try reflexivity; try (f_equal; f_equal; lia); try period_absurd.
Qed.

Lemma count_into_HdRel a k m :
  period_lt a k ->
  HdRel period_lt a (map fst m) ->
  HdRel period_lt a (map fst (count_into k m)).
Proof.
  intros Hak Hm. destruct m as [| [k' c] m]; simpl.
  - now constructor.
  - inversion Hm; subst.
    destruct (period_ltb k k'); [| destruct (period_eqb k k')];
      now constructor.
Qed.

Lemma count_into_Sorted k m :
  Sorted period_lt (map fst m) ->
  Sorted period_lt (map fst (count_into k m)).
Proof.
  induction m as [| [k' c] m IH]; simpl; intros Hs.
  - repeat constructor.
  - inversion Hs as [| ? ? Hs' Hhd]; subst.
    destruct (period_ltb k k') eqn:Elt; [| destruct (period_eqb k k') eqn:Eeq];
      period_facts; simpl.
    + constructor; [assumption | now constructor].
    + now constructor.
    + constructor; [now apply IH |].
      apply count_into_HdRel; [| assumption].
      unfold period_lt in *; lia.
Qed.

Lemma groupby_size_Sorted {R : Type} (key : R -> Period) (df : list R) :
  StronglySorted period_lt (map fst (groupby_size key df)).
Proof.
  apply Sorted_StronglySorted; [exact period_lt_trans |].
  unfold groupby_size.
  assert (H : forall m, Sorted period_lt (map fst m) ->
    Sorted period_lt
      (map fst (fold_left (fun m r => count_into (key r) m) df m))).
  { induction df as [| r df IH]; intros m Hm; simpl; [assumption |].
    apply IH. now apply count_into_Sorted. }
  apply H. constructor.
Qed.

Lemma groupby_size_perm {R : Type} (key : R -> Period) (df df' : list R) :
  Permutation df df' -> groupby_size key df = groupby_size key df'.
Proof.
  unfold groupby_size. intros Hp. generalize (@nil (Period * Z)).
  induction Hp as [| x l l' Hp IH | x y l | l l' l'' Hp1 IH1 Hp2 IH2];
    intros m; simpl.
  - reflexivity.
  - apply IH.
  - now rewrite count_into_comm.
  - now rewrite IH1.
Qed.

Lemma filter_Permutation {A : Type} (f : A -> bool) (l l' : list A) :
  Permutation l l' -> Permutation (filter f l) (filter f l').
Proof.
  induction 1 as [| x l l' Hp IH | x y l | l l' l'' Hp1 IH1 Hp2 IH2]; simpl.
  - constructor.
  - destruct (f x); [now constructor | assumption].
  - destruct (f x), (f y); try reflexivity. constructor.
  - now transitivity (filter f l').
Qed.

Lemma condition_subset_perm data data' v :
  Permutation data data' ->
  Permutation (condition_subset data v) (condition_subset data' v).
Proof.
  intros Hp. unfold condition_subset, select_eq.
  destruct (Py.truthy v); [now apply filter_Permutation | assumption].
Qed.

Lemma trend_frame_perm data data' v :
  Permutation data data' -> trend_frame data v = trend_frame data' v.
Proof.
  intros Hp. unfold trend_frame.
  apply groupby_size_perm. now apply (condition_subset_perm data data' v).
Qed.

(** *** The counts *)

Lemma size_of_cons k k0 c m :
  size_of k ((k0, c) :: m)
  = if period_eqb k k0 then c + size_of k m else size_of k m.
Proof. reflexivity. Qed.

Lemma size_of_count_into k k' m :
  size_of k (count_into k' m)
  = size_of k m + (if period_eqb k k' then 1 else 0).
Proof.
  induction m as [| [k0 c] m IH]; cbn [count_into].
  - rewrite size_of_cons. cbn [size_of fold_right].
    destruct (period_eqb k k'); lia.
  - destruct (period_ltb k' k0) eqn:Elt; [| destruct (period_eqb k' k0) eqn:Eeq];
      rewrite !size_of_cons; rewrite ?size_of_cons.
    + destruct (period_eqb k k'), (period_eqb k k0); lia.
    + period_facts. destruct (period_eqb k k0); lia.
    + rewrite IH. destruct (period_eqb k k0) eqn:E1, (period_eqb k k') eqn:E2;
        period_facts; lia.
Qed.

Lemma size_of_groupby (k : Period) (df : DataFrame) :
  size_of k (groupby_size YearMonth df)
  = Z.of_nat (List.length (rows_in_month k df)).
Proof.
  unfold groupby_size, rows_in_month.
  assert (H : forall m,
    size_of k (fold_left (fun m r => count_into (YearMonth r) m) df m)
    = size_of k m
      + Z.of_nat (List.length (filter (fun r => period_eqb k (YearMonth r)) df))).
  { induction df as [| r df IH]; intros m; simpl; [lia |].
    rewrite IH, size_of_count_into.
    destruct (period_eqb k (YearMonth r)); simpl List.length; lia. }
  rewrite H. reflexivity.
Qed.

Lemma size_of_absent k m :
  ~ In k (map fst m) -> size_of k m = 0.
Proof.
  induction m as [| [k0 c] m IH]; simpl; intros Hn; [reflexivity |].
  destruct (period_eqb k k0) eqn:E; period_facts.
  - exfalso. apply Hn. now left.
  - apply IH. intros H. apply Hn. now right.
Qed.

Lemma size_of_In k c m :
  StronglySorted period_lt (map fst m) ->
  In (k, c) m -> size_of k m = c.
Proof.
  induction m as [| [k0 c0] m IH]; simpl; intros Hs Hin; [contradiction |].
  inversion Hs as [| ? ? Hs' Hall]; subst.
  destruct Hin as [Heq | Hin].
  - inversion Heq; subst.
    replace (period_eqb k k) with true by (symmetry; now apply period_eqb_spec).
    rewrite size_of_absent; [lia |].
    intros H. rewrite Forall_forall in Hall.
    apply (period_lt_irrefl k). now apply Hall.
  - destruct (period_eqb k k0) eqn:E; period_facts.
    + exfalso. rewrite Forall_forall in Hall.
      apply (period_lt_irrefl k0). apply Hall.
      now apply (in_map fst) in Hin.
    + now apply IH.
Qed.

Lemma count_into_positive k m :
  Forall (fun kc => 0 < snd kc) m ->
  Forall (fun kc => 0 < snd kc) (count_into k m).
Proof.
  induction m as [| [k0 c] m IH]; simpl; intros H.
  - repeat constructor.
  - inversion H; subst; simpl in *.
    destruct (period_ltb k k0); [| destruct (period_eqb k k0)].
    + constructor; [simpl; lia | now constructor].
    + constructor; [simpl; lia | assumption].
    + constructor; [assumption | now apply IH].
Qed.

Lemma groupby_size_positive {R : Type} (key : R -> Period) (df : list R) :
  Forall (fun kc => 0 < snd kc) (groupby_size key df).
Proof.
  unfold groupby_size.
  assert (H : forall m, Forall (fun kc : Period * Z => 0 < snd kc) m ->
    Forall (fun kc => 0 < snd kc)
      (fold_left (fun m r => count_into (key r) m) df m)).
  { induction df as [| r df IH]; intros m Hm; simpl; [assumption |].
    apply IH. now apply count_into_positive. }
  apply H. constructor.
Qed.

(** Each row of the trend frame is a month with its number of rows. *)
Lemma trend_frame_counts data v p c :
  In (p, c) (trend_frame data v) ->
  c = Z.of_nat (List.length (rows_in_month p (condition_subset data v)))
  /\ 0 < c.
Proof.
  intros Hin. split.
  - rewrite <- size_of_groupby. symmetry.
    apply size_of_In; [apply groupby_size_Sorted | exact Hin].
  - pose proof (groupby_size_positive YearMonth (condition_subset data v)) as H.
    rewrite Forall_forall in H. apply (H _ Hin).
Qed.

(** Every month with a row has its row in the trend frame. *)
Lemma trend_frame_covers data v r :
  In r (condition_subset data v) ->
  In (YearMonth r) (map fst (trend_frame data v)).
Proof.
  intros Hr.
  destruct (in_dec (fun p q : Period =>
              match Bool.bool_dec (period_eqb p q) true with
              | left e => left (proj1 (period_eqb_spec p q) e)
              | right n => right (fun e => n (proj2 (period_eqb_spec p q) e))
              end)
             (YearMonth r) (map fst (trend_frame data v))) as [H | H];
    [assumption |].
  exfalso. apply size_of_absent in H.
  unfold trend_frame in H. fold (condition_subset data v) in H.
  rewrite size_of_groupby in H.
  assert (Hin : In r (rows_in_month (YearMonth r) (condition_subset data v))).
  { apply filter_In. split; [assumption | now apply period_eqb_spec]. }
  destruct (rows_in_month _ _); [contradiction | simpl in H; lia].
Qed.

Lemma combine_map_map {A B C : Type} (f : A -> B) (g : A -> C) (l : list A) :
  combine (map f l) (map g l) = map (fun a => (f a, g a)) l.
Proof. induction l as [| a l IH]; simpl; [reflexivity | now rewrite IH]. Qed.

Lemma px_bar_points {R : Type} (df : list R) x y barmode title :
  output_points (Fig (px_bar df x y None barmode title))
  = map (fun r => (x r, y r)) df.
Proof.
  unfold output_points, px_bar, fig_data. rewrite px_groups_None.
  cbn [map trace_points fst snd List.concat].
  now rewrite app_nil_r, <- combine_map_map.
Qed.

Lemma px_line_points {R : Type} (df : list R) x y title :
  output_points (Fig (px_line df x y title))
  = map (fun r => (x r, y r)) df.
Proof.
  unfold output_points, px_line, fig_data. rewrite px_groups_None.
  cbn [map trace_points fst snd List.concat].
  now rewrite app_nil_r, <- combine_map_map.
Qed.

Lemma update_admission_points data chart_type v :
  output_points (update_admission data chart_type v)
  = map (fun row => (CStr (period_str (fst row)), CInt (snd row)))
        (trend_frame data v).
Proof.
  unfold update_admission.
  destruct (is_line chart_type);
    [rewrite px_line_points | rewrite px_bar_points];
    unfold astype_str; rewrite map_map; reflexivity.
Qed.

(** C5.  Admission trends: the (month, count) pairs of the chart are the
    rows of the trend frame in order, labelled by [str(period)]; the months
    of the trend frame are strictly ascending in chronological order, each
    with the number of selected rows of that month, no month with a row
    left out; and the result is the same for every reordering of the rows
    of the table. *)
Theorem admission_trends_chronological data chart_type selected_condition :
  StronglySorted period_lt (map fst (trend_frame data selected_condition))
  /\ output_points (update_admission data chart_type selected_condition)
     = map (fun row => (CStr (period_str (fst row)), CInt (snd row)))
           (trend_frame data selected_condition)
  /\ (forall p c, In (p, c) (trend_frame data selected_condition) ->
        c = Z.of_nat (List.length
              (rows_in_month p (condition_subset data selected_condition)))
        /\ 0 < c)
  /\ (forall r, In r (condition_subset data selected_condition) ->
        In (YearMonth r) (map fst (trend_frame data selected_condition)))
  /\ (forall data', Permutation data data' ->
        update_admission data' chart_type selected_condition
        = update_admission data chart_type selected_condition).
Proof.
  split; [apply groupby_size_Sorted |].
  split; [apply update_admission_points |].
  split; [apply trend_frame_counts |].
  split; [apply trend_frame_covers |].
  intros data' Hp. unfold update_admission.
  now rewrite (trend_frame_perm data data' selected_condition Hp).
Qed.

(** ** Age distribution: the values and their bins *)




(** The bins of the specification are the equal-width cells of the range:
    a value lies at or after the left edge of its bin and, short of the
    maximum, before the left edge of the next one. *)
Lemma spec_equal_width_bin_edges lo hi n x :
  (lo < hi)%Q -> (0 < n)%nat -> (lo <= x)%Q -> (x <= hi)%Q ->
  (spec_bin_edge lo hi n (spec_equal_width_bin lo hi n x) <= x)%Q
  /\ ((x < hi)%Q ->
      (x < spec_bin_edge lo hi n (S (spec_equal_width_bin lo hi n x)))%Q).
Proof.
  intros Hlt Hn Hlo Hhi.
  assert (Hd : (0 < hi - lo)%Q) by (unfold Qminus; now apply (proj1 (Qlt_minus_iff lo hi))).
  assert (HnQ : (0 < inject_Z (Z.of_nat n))%Q).
  { replace 0%Q with (inject_Z 0) by reflexivity. rewrite <- Zlt_Qlt. lia. }
  set (w := ((hi - lo) / inject_Z (Z.of_nat n))%Q).
  assert (Hw : (0 < w)%Q).
  { unfold w. apply Qlt_shift_div_l; [assumption |]. now rewrite Qmult_0_l. }
  set (q := ((x - lo) * inject_Z (Z.of_nat n) / (hi - lo))%Q).
  assert (Hqw : (q * w == x - lo)%Q).
  { unfold q, w. field. split; intros H; rewrite H in *;
      [now apply Qlt_irrefl in HnQ | now apply Qlt_irrefl in Hd]. }
  assert (Hq0 : (0 <= q)%Q).
  { unfold q. apply Qle_shift_div_l; [assumption |]. rewrite Qmult_0_l.
    apply Qmult_le_0_compat; [| now apply Qlt_le_weak].
    unfold Qminus. now apply (proj1 (Qle_minus_iff lo x)). }
  unfold spec_equal_width_bin.
  replace (Qeq_bool lo hi) with false.
  2:{ symmetry. destruct (Qeq_bool lo hi) eqn:E; [| reflexivity].
      apply Qeq_bool_iff in E. rewrite E in Hlt. now apply Qlt_irrefl in Hlt. }
  fold q.
  assert (Hf0 : 0 <= Qfloor q).
  { replace 0 with (Qfloor 0) by reflexivity. now apply Qfloor_resp_le. }
  set (i := Z.min (Z.of_nat n - 1) (Qfloor q)).
  assert (Hi0 : 0 <= i) by (unfold i; lia).
  unfold spec_bin_edge. fold w.
  split.
  - rewrite Z2Nat.id by assumption.
    assert (H1 : (inject_Z i <= q)%Q).
    { apply Qle_trans with (inject_Z (Qfloor q)); [| apply Qfloor_le].
      rewrite <- Zle_Qle. unfold i; lia. }
    apply (Qmult_le_compat_r _ _ w) in H1; [| now apply Qlt_le_weak].
    rewrite Hqw in H1.
    apply Qplus_le_r with (z := lo) in H1.
    eapply Qle_trans; [exact H1 |].
    assert (E : (lo + (x - lo) == x)%Q) by ring. rewrite E. apply Qle_refl.
  - intros Hxhi.
    assert (Hqn : (q < inject_Z (Z.of_nat n))%Q).
    { unfold q. apply Qlt_shift_div_r; [assumption |].
      rewrite (Qmult_comm (inject_Z _)).
      apply Qmult_lt_compat_r; [assumption |].
      apply Qplus_lt_l with (z := lo).
      assert (E : (x - lo + lo == x)%Q) by ring.
      assert (E' : (hi - lo + lo == hi)%Q) by ring.
      now rewrite E, E'. }
    assert (Hfl : Qfloor q < Z.of_nat n).
    { rewrite Zlt_Qlt. apply Qle_lt_trans with q; [apply Qfloor_le | assumption]. }
    assert (Hi : i = Qfloor q) by (unfold i; lia).
    rewrite Nat2Z.inj_succ, Z2Nat.id by assumption. rewrite Hi.
    assert (H1 : (q < inject_Z (Z.succ (Qfloor q)))%Q).
    { unfold Z.succ. apply Qlt_floor. }
    apply (Qmult_lt_compat_r _ _ w) in H1; [| assumption].
    rewrite Hqw in H1.
    apply Qplus_lt_r with (z := lo) in H1.
    eapply Qle_lt_trans; [| exact H1].
    assert (E : (lo + (x - lo) == x)%Q) by ring. rewrite E. apply Qle_refl.
Qed.

(** Every value lies in the observed range. *)
Lemma observed_range (l : list Q) v :
  In v l -> (Qmin_list l <= v)%Q /\ (v <= Qmax_list l)%Q.
Proof.
  destruct l as [| h t]; [intros [] |]. unfold Qmin_list, Qmax_list.
  revert v. induction t as [| a t IH]; intros v Hv.
  - destruct Hv as [<- | []]. split; apply Qle_refl.
  - cbn [fold_right].
    set (lo := fold_right (fun a b => if Qle_bool a b then a else b) h t) in *.
    set (hi := fold_right (fun a b => if Qle_bool a b then b else a) h t) in *.
    assert (Hlo : ((if Qle_bool a lo then a else lo) <= lo)%Q
                  /\ ((if Qle_bool a lo then a else lo) <= a)%Q).
    { destruct (Qle_bool a lo) eqn:E.
      - apply Qle_bool_iff in E. split; [assumption | apply Qle_refl].
      - split; [apply Qle_refl |]. apply Qlt_le_weak, Qnot_le_lt.
        intros H. apply Qle_bool_iff in H. congruence. }
    assert (Hhi : (hi <= (if Qle_bool a hi then hi else a))%Q
                  /\ (a <= (if Qle_bool a hi then hi else a))%Q).
    { destruct (Qle_bool a hi) eqn:E.
      - apply Qle_bool_iff in E. split; [apply Qle_refl | assumption].
      - split; [| apply Qle_refl]. apply Qlt_le_weak, Qnot_le_lt.
        intros H. apply Qle_bool_iff in H. congruence. }
    destruct Hlo as [Hlo1 Hlo2], Hhi as [Hhi1 Hhi2].
    destruct Hv as [<- | [<- | Hv]].
    + destruct (IH h (or_introl eq_refl)) as [H1 H2].
      split; [now apply Qle_trans with lo | now apply Qle_trans with hi].
    + split; assumption.
    + destruct (IH v (or_intror Hv)) as [H1 H2].
      split; [now apply Qle_trans with lo | now apply Qle_trans with hi].
Qed.





(** ** Insurance comparison *)

(** C1 (amended).  Insurance comparison: the figure has one bar series per
    Medical Condition of the gender-filtered subset, in grouped bar mode,
    and in it one bar for each row of that condition, in table order,
    placed at the row's Insurance Provider and as high as the row's own
    Billing Amount; the bars number the rows of the subset, and no mean is
    taken. *)
Theorem insurance_bars_are_rows data selected_gender :
  exists gs,
    grouping Medical_Condition (gender_subset data selected_gender) gs
    /\ update_insurance data selected_gender
       = Fig (mkFigure
                (map (fun g => Bar (fst g)
                                   (map col_Insurance_Provider (snd g))
                                   (map col_Billing_Amount (snd g)))
                     gs)
                "Insurance Provider Price Comparison" "group")
    /\ output_marks (update_insurance data selected_gender)
       = List.length (gender_subset data selected_gender).
Proof.
  exists (group_rows Medical_Condition (gender_subset data selected_gender)).
  split; [apply group_rows_grouping |].
  split; [reflexivity |].
  unfold update_insurance. fold (gender_subset data selected_gender).
  apply px_bar_marks.
Qed.

(** C1 (as stated) fails: in the sample table three rows share the pair
    (Aetna, Diabetes); the callback draws a bar for each of them, with
    heights 200, NaN and 600, where the chart of means has the single bar
    of height 400 for the pair. *)
Lemma insurance_bars_not_means :
  output_points (update_insurance sample_table Py.None_)
  = [ (CStr "Aetna", CFloat 200); (CStr "Aetna", CNaN);
      (CStr "Aetna", CFloat 600); (CStr "Cigna", CFloat 450) ]
  /\ List.concat (map trace_points (mean_billing_bars sample_table))
     = [ (CStr "Aetna", CFloat (800 # 2)); (CStr "Cigna", CFloat 450) ]
  /\ output_marks (update_insurance sample_table Py.None_) = 4%nat
  /\ list_sum (map trace_size (mean_billing_bars sample_table)) = 2%nat.
Proof. repeat split. Qed.

(** ** Start-up aggregates *)



Lemma dropna_In (s : list (option Q)) q :
  In q (dropna s) <-> In (Some q) s.
Proof.
  induction s as [| [a |] s IH]; simpl.
  - reflexivity.
  - rewrite IH. split; (intros [H | H]; [left | right]); congruence.
  - rewrite IH. split; [now right | intros [H | H]; [discriminate | assumption]].
Qed.

Lemma insert_sorted_In a l q :
  In q (insert_sorted a l) <-> q = a \/ In q l.
Proof.
  induction l as [| h t IH]; simpl.
  - split; (intros [H | H]; [left | right]); auto.
  - destruct (Qle_bool a h); simpl.
    + split; (intros [H | H]; [left | right]); auto.
    + rewrite IH. split; intros H; intuition.
Qed.

Lemma sort_values_In l q : In q (sort_values l) <-> In q l.
Proof.
  induction l as [| a l IH]; simpl; [reflexivity |].
  rewrite insert_sorted_In, IH. split; (intros [H | H]; [left | right]); auto.
Qed.

Lemma insert_sorted_sorted a l :
  StronglySorted Qle l -> StronglySorted Qle (insert_sorted a l).
Proof.
  induction 1 as [| h t Ht IH Hall]; simpl.
  - repeat constructor.
  - destruct (Qle_bool a h) eqn:E.
    + apply Qle_bool_iff in E. constructor; [now constructor |].
      constructor; [assumption |].
      rewrite Forall_forall in *. intros y Hy.
      apply Qle_trans with h; auto.
    + assert (Hha : (h <= a)%Q).
      { apply Qlt_le_weak. apply Qnot_le_lt. intros H.
        apply Qle_bool_iff in H. congruence. }
      constructor; [assumption |].
      rewrite Forall_forall in *. intros y Hy.
      apply insert_sorted_In in Hy as [-> | Hy]; auto.
Qed.

Lemma sort_values_sorted l : StronglySorted Qle (sort_values l).
Proof.
  induction l as [| a l IH]; simpl; [constructor | now apply insert_sorted_sorted].
Qed.

Lemma sorted_last_max l h t :
  StronglySorted Qle l -> rev l = h :: t ->
  forall q, In q l -> (q <= h)%Q.
Proof.
  intros Hs; revert h t.
  induction Hs as [| a l Hl IH Hall]; simpl; intros h t Hrev q Hq;
    [contradiction |].
  destruct (rev l) as [| h' t'] eqn:E.
  - assert (l = []) by (now rewrite <- (rev_involutive l), E). subst l.
    simpl in Hrev. inversion Hrev; subst. destruct Hq as [<- | []].
    apply Qle_refl.
  - simpl in Hrev. inversion Hrev; subst h' t.
    assert (Hh : In h l).
    { apply in_rev. rewrite E. now left. }
    destruct Hq as [<- | Hq].
    + rewrite Forall_forall in Hall. now apply Hall.
    + now apply (IH h t' eq_refl).
Qed.

(** [min()] is the least and [max()] the greatest value present. *)
Lemma series_min_spec s m :
  series_min s = Some m ->
  In (Some m) s /\ forall q, In (Some q) s -> (m <= q)%Q.
Proof.
  unfold series_min. pose proof (sort_values_sorted (dropna s)) as Hs.
  pose proof (sort_values_In (dropna s)) as Hin.
  destruct (sort_values (dropna s)) as [| h t]; [discriminate |].
  intros H; inversion H; subst h. split.
  - apply dropna_In, Hin. now left.
  - intros q Hq. apply dropna_In, Hin in Hq.
    inversion Hs as [| ? ? _ Hall]; subst.
    destruct Hq as [<- | Hq]; [apply Qle_refl |].
    rewrite Forall_forall in Hall. now apply Hall.
Qed.

Lemma series_max_spec s m :
  series_max s = Some m ->
  In (Some m) s /\ forall q, In (Some q) s -> (q <= m)%Q.
Proof.
  unfold series_max. pose proof (sort_values_sorted (dropna s)) as Hs.
  pose proof (sort_values_In (dropna s)) as Hin.
  destruct (rev (sort_values (dropna s))) as [| h t] eqn:E; [discriminate |].
  intros H; inversion H; subst h. split.
  - apply dropna_In, Hin, in_rev. rewrite E. now left.
  - intros q Hq. apply dropna_In, Hin in Hq.
    now apply (sorted_last_max _ _ _ Hs E).
Qed.




(** * Beyond the stated claims *)

(** ** The options of the dropdowns *)

Lemma unique_step_fold (l seen : list string) :
  let step := fun seen v =>
    if existsb (String.eqb v) seen then seen else seen ++ [v] in
  NoDup seen ->
  NoDup (fold_left step l seen)
  /\ forall x, In x (fold_left step l seen) <-> In x seen \/ In x l.
Proof.
  intros step. revert seen. induction l as [| a l IH]; intros seen Hnd; simpl.
  - split; [assumption |]. intros x. tauto.
  - assert (Hnd' : NoDup (step seen a)).
    { unfold step. destruct (existsb (String.eqb a) seen) eqn:E; [assumption |].
      apply NoDup_app; [assumption | repeat constructor; intros [] |].
      intros x Hx [<- | []]. apply existsb_eqb_In in Hx. congruence. }
    destruct (IH (step seen a) Hnd') as [H1 H2]. split; [assumption |].
    intros x. rewrite H2. unfold step.
    destruct (existsb (String.eqb a) seen) eqn:E.
    + apply existsb_eqb_In in E. split; [tauto |].
      intros [H | [<- | H]]; tauto.
    + rewrite in_app_iff. simpl. tauto.
Qed.

Lemma unique_NoDup l : NoDup (unique l).
Proof. apply (unique_step_fold l []). constructor. Qed.

Lemma unique_In l x : In x (unique l) <-> In x l.
Proof.
  unfold unique. rewrite (proj2 (unique_step_fold l [] (NoDup_nil _)) x).
  simpl. tauto.
Qed.

Lemma offered_gender data :
  offered (gender_filter data) = unique (map Gender data).
Proof.
  unfold offered, gender_filter. simpl. rewrite map_map. simpl. apply map_id.
Qed.

Lemma offered_condition data :
  offered (condition_filter data) = unique (map Medical_Condition data).
Proof.
  unfold offered, condition_filter. simpl. rewrite map_map. simpl. apply map_id.
Qed.

(** X1.  The gender and condition dropdowns offer every value of their
    column exactly once, each labelled by itself, and nothing else. *)
Theorem dropdown_options_are_column_values data :
  NoDup (offered (gender_filter data))
  /\ (forall g, In g (offered (gender_filter data)) <->
        exists r, In r data /\ Gender r = g)
  /\ NoDup (offered (condition_filter data))
  /\ (forall c, In c (offered (condition_filter data)) <->
        exists r, In r data /\ Medical_Condition r = c)
  /\ Forall (fun o => opt_label o = opt_value o)
       (choice_options (gender_filter data)
        ++ choice_options (condition_filter data)).
Proof.
  rewrite offered_gender, offered_condition.
  split; [apply unique_NoDup |]. split.
  { intros g. rewrite unique_In, in_map_iff. split; intros [r [H1 H2]]; eauto. }
  split; [apply unique_NoDup |]. split.
  { intros c. rewrite unique_In, in_map_iff. split; intros [r [H1 H2]]; eauto. }
  apply Forall_app. split; apply Forall_map, Forall_forall; reflexivity.
Qed.

(** The keys of the groups of a frame are the distinct keys of its rows. *)
Lemma group_rows_keys {R : Type} (key : R -> string) (df : list R) :
  map fst (group_rows key df) = unique (map key df).
Proof.
  unfold group_rows, unique.
  assert (H : forall gs,
    map fst (fold_left (fun gs r => add_to_group (key r) r gs) df gs)
    = fold_left
        (fun seen v => if existsb (String.eqb v) seen then seen else seen ++ [v])
        (map key df) (map fst gs)).
  { induction df as [| r df IH]; intros gs; simpl; [reflexivity |].
    rewrite IH, add_to_group_fst. reflexivity. }
  apply (H []).
Qed.

(** X2.  Without a gender selection the age histogram has one series per
    option of the gender dropdown, and the insurance chart one series per
    option of the condition dropdown, in the order of the options. *)
Theorem series_follow_dropdown_options data :
  series_names (update_distribution data Py.None_)
  = offered (gender_filter data)
  /\ series_names (update_insurance data Py.None_)
     = offered (condition_filter data).
Proof.
  rewrite offered_gender, offered_condition. split.
  - unfold update_distribution. simpl Py.truthy. cbv iota.
    destruct data as [| r rs]; [reflexivity |].
    unfold series_names, px_histogram, fig_data, px_groups.
    rewrite map_map. simpl trace_name. apply group_rows_keys.
  - unfold update_insurance. simpl Py.truthy. cbv iota.
    unfold series_names, px_bar, fig_data, px_groups.
    rewrite map_map. simpl trace_name. apply group_rows_keys.
Qed.

(** ** Selecting an option *)

Lemma fold_one_group {R : Type} (key : R -> string) k (df g : list R) :
  (forall r, In r df -> key r = k) ->
  fold_left (fun gs r => add_to_group (key r) r gs) df [(k, g)]
  = [(k, g ++ df)].
Proof.
  revert g. induction df as [| r df IH]; intros g Hk; simpl.
  - now rewrite app_nil_r.
  - rewrite (Hk r (or_introl eq_refl)), String.eqb_refl.
    rewrite IH by (intros x Hx; apply Hk; now right).
    now rewrite <- app_assoc.
Qed.

(** A frame whose rows share one key forms a single group. *)
Lemma group_rows_one_key {R : Type} (key : R -> string) k (df : list R) :
  df <> [] -> (forall r, In r df -> key r = k) ->
  group_rows key df = [(k, df)].
Proof.
  destruct df as [| r rs]; [congruence |]. intros _ Hk.
  unfold group_rows. simpl. rewrite (Hk r (or_introl eq_refl)).
  apply (fold_one_group key k rs [r]). intros x Hx. apply Hk. now right.
Qed.

Lemma select_eq_Str col s data :
  select_eq col (Py.Str s) data = filter (fun r => (col r =? s)%string) data.
Proof. reflexivity. Qed.

(** X3.  Selecting an option offered by the gender dropdown (other than the
    empty string) never gives the "no chart" result: the age histogram has
    exactly one series, named after the gender, with the Age of each row of
    that gender in table order, and at least one such row. *)
Theorem offered_gender_gives_one_series data s :
  In s (offered (gender_filter data)) ->
  s <> "" ->
  update_distribution data (Py.Str s)
  = Fig (mkFigure
           [Histogram s
              (map col_Age (filter (fun r => (Gender r =? s)%string) data))
              10]
           "Age Distribution by Gender" "relative")
  /\ filter (fun r => (Gender r =? s)%string) data <> [].
Proof.
  intros Hin Hs. rewrite offered_gender, unique_In, in_map_iff in Hin.
  destruct Hin as [r0 [Hg Hr0]].
  assert (Hne : filter (fun r => (Gender r =? s)%string) data <> []).
  { intros H. assert (Hin : In r0 (filter (fun r => (Gender r =? s)%string) data)).
    { apply filter_In. split; [assumption | now apply String.eqb_eq]. }
    rewrite H in Hin. contradiction. }
  split; [| exact Hne].
  unfold update_distribution. simpl Py.truthy.
  apply String.eqb_neq in Hs. rewrite Hs. simpl negb. cbv iota.
  rewrite select_eq_Str.
  destruct (filter (fun r => (Gender r =? s)%string) data) as [| r rs] eqn:E;
    [congruence |].
  rewrite <- E. unfold px_histogram, px_groups.
  rewrite (group_rows_one_key Gender s); [reflexivity | congruence |].
  intros x Hx. apply filter_In in Hx as [_ Hx]. now apply String.eqb_eq.
Qed.

Lemma offered_gender_gives_one_series_witness :
  In "Male" (offered (gender_filter sample_table))
  /\ "Male" <> ""
  /\ series_names (update_distribution sample_table (Py.Str "Male")) = ["Male"].
Proof.
  assert (H1 : In "Male" (offered (gender_filter sample_table)))
    by (right; left; reflexivity).
  assert (H2 : "Male" <> "") by discriminate.
  split; [exact H1 | split; [exact H2 |]].
  rewrite (proj1 (offered_gender_gives_one_series sample_table "Male" H1 H2)).
  reflexivity.
Defined.

(** ** The selections partition the table *)

Lemma groups_size_by_key {R : Type} (key : R -> string) (df : list R) :
  list_sum
    (map (fun k => List.length (filter (fun r => (key r =? k)%string) df))
         (unique (map key df)))
  = List.length df.
Proof.
  rewrite <- (group_rows_size key df), <- group_rows_keys.
  unfold groups_size. rewrite map_map. f_equal.
  apply map_ext_in. intros [k g] Hin. simpl.
  now destruct (grouping_rows _ _ _ (group_rows_grouping key df) k g Hin)
    as [<- _].
Qed.

Lemma update_medical_condition_marks data g :
  output_marks (update_medical_condition data g)
  = List.length (gender_subset data g).
Proof.
  unfold update_medical_condition. fold (gender_subset data g).
  apply px_pie_marks.
Qed.

(** X4.  The gender selections split the condition pie without loss or
    overlap: when no row has the empty string as Gender, the sectors drawn
    for the offered genders, taken together, number the sectors drawn
    without a selection, which number the records. *)
Theorem gender_selections_partition_pie data :
  ~ In "" (map Gender data) ->
  list_sum
    (map (fun s => output_marks (update_medical_condition data (Py.Str s)))
         (offered (gender_filter data)))
  = output_marks (update_medical_condition data Py.None_)
  /\ output_marks (update_medical_condition data Py.None_) = num_records data.
Proof.
  intros Hne. rewrite offered_gender.
  rewrite (update_medical_condition_marks data Py.None_).
  split; [| reflexivity].
  change (gender_subset data Py.None_) with data.
  rewrite <- (groups_size_by_key Gender data).
  f_equal. apply map_ext_in. intros s Hs.
  rewrite update_medical_condition_marks. unfold gender_subset.
  assert (Hs' : s <> "").
  { intros ->. apply Hne. exact (proj1 (unique_In _ _) Hs). }
  apply String.eqb_neq in Hs'. simpl Py.truthy. rewrite Hs'. reflexivity.
Qed.

Lemma gender_selections_partition_pie_witness :
  ~ In "" (map Gender sample_table)
  /\ list_sum
       (map (fun s =>
               output_marks (update_medical_condition sample_table (Py.Str s)))
            (offered (gender_filter sample_table)))
     = 4%nat.
Proof.
  assert (H : ~ In "" (map Gender sample_table)).
  { simpl. intros H.
    repeat (destruct H as [H | H]; [discriminate H |]). exact H. }
  split; [exact H |].
  rewrite (proj1 (gender_selections_partition_pie sample_table H)).
  reflexivity.
Defined.

(** ** The billing slider against the billing histogram *)

Lemma gender_subset_incl data g r :
  In r (gender_subset data g) -> In r data.
Proof.
  unfold gender_subset, select_eq. destruct (Py.truthy g); [| trivial].
  intros H. now apply filter_In in H.
Qed.

Lemma series_min_None s :
  series_min s = None -> forall q, ~ In (Some q) s.
Proof.
  unfold series_min. intros H q Hq.
  apply dropna_In, (sort_values_In (dropna s)) in Hq.
  destruct (sort_values (dropna s)); [contradiction | discriminate].
Qed.

Lemma billing_frame_eq data g x :
  billing_frame data g x
  = filter (fun r => le_threshold (Billing_Amount r) x) (gender_subset data g).
Proof. reflexivity. Qed.

(** X5.  A threshold below the least Billing Amount of the table (or any
    threshold, when no row has an amount) leaves the billing histogram
    with nothing to count: its single trace has an empty array of values,
    whatever the gender selection. *)
Theorem billing_below_minimum_is_empty data selected_gender threshold :
  (forall m, slider_min (billing_slider data) = Some m -> (threshold < m)%Q) ->
  update_billing data selected_gender threshold
  = Fig (mkFigure [Histogram "" [] 10]
           "Billing Amount Distribution" "relative")
  /\ hist_total (update_billing data selected_gender threshold) = 0%nat.
Proof.
  intros Hmin. unfold update_billing.
  replace (billing_frame data selected_gender threshold) with (@nil Row);
    [split; reflexivity |].
  symmetry. rewrite billing_frame_eq. apply filter_none. intros r Hr.
  apply gender_subset_incl in Hr.
  destruct (Billing_Amount r) as [b |] eqn:Eb; [| reflexivity].
  assert (Hin : In (Some b) (map Billing_Amount data)).
  { rewrite <- Eb. now apply in_map. }
  simpl in Hmin. simpl.
  destruct (series_min (map Billing_Amount data)) as [m |] eqn:Em.
  - destruct (series_min_spec _ _ Em) as [_ Hle].
    destruct (Qle_bool b threshold) eqn:E; [| reflexivity].
    apply Qle_bool_iff in E. exfalso.
    apply (Qlt_irrefl m). apply Qle_lt_trans with threshold; [| now apply Hmin].
    apply Qle_trans with b; [now apply Hle | assumption].
  - exfalso. now apply (series_min_None _ Em b).
Qed.

Lemma billing_below_minimum_is_empty_witness :
  (forall m, slider_min (billing_slider sample_table) = Some m -> (100 < m)%Q)
  /\ update_billing sample_table Py.None_ 100%Q
     = Fig (mkFigure [Histogram "" [] 10]
              "Billing Amount Distribution" "relative").
Proof.
  assert (H : forall m, slider_min (billing_slider sample_table) = Some m ->
                        (100 < m)%Q).
  { intros m Hm. vm_compute in Hm. inversion Hm. reflexivity. }
  split; [exact H |].
  exact (proj1 (billing_below_minimum_is_empty sample_table Py.None_ 100%Q H)).
Defined.

Lemma billing_frame_above_max data g x top :
  slider_max (billing_slider data) = Some top ->
  (top <= x)%Q ->
  billing_frame data g x = filter has_billing (gender_subset data g).
Proof.
  intros Hmax Hle.
  rewrite billing_frame_eq. apply filter_ext_in. intros r Hr.
  apply gender_subset_incl in Hr. unfold has_billing.
  destruct (Billing_Amount r) as [b |] eqn:Eb; [| reflexivity].
  simpl. apply Qle_bool_iff. apply Qle_trans with top; [| assumption].
  simpl in Hmax. apply (proj2 (series_max_spec _ _ Hmax)).
  rewrite <- Eb. now apply in_map.
Qed.

(** X6.  A threshold at or above the slider's maximum keeps every row of
    the gender selection that has a Billing Amount, and only those: the
    rows with a missing amount are the only ones the histogram leaves
    out. *)
Theorem billing_at_maximum_keeps_all_valid data selected_gender threshold top :
  slider_max (billing_slider data) = Some top ->
  (top <= threshold)%Q ->
  billing_frame data selected_gender threshold
  = filter has_billing (gender_subset data selected_gender)
  /\ hist_total (update_billing data selected_gender threshold)
     = List.length (filter has_billing (gender_subset data selected_gender)).
Proof.
  intros Hmax Hle.
  assert (Hf := billing_frame_above_max data selected_gender threshold top
                 Hmax Hle).
  split; [exact Hf |]. now rewrite update_billing_total, Hf.
Qed.

Lemma billing_at_maximum_keeps_all_valid_witness :
  slider_max (billing_slider sample_table) = Some 600%Q
  /\ (600 <= 600)%Q
  /\ hist_total (update_billing sample_table Py.None_ 600%Q) = 3%nat.
Proof.
  assert (H1 : slider_max (billing_slider sample_table) = Some 600%Q)
    by reflexivity.
  assert (H2 : (600 <= 600)%Q) by apply Qle_refl.
  split; [exact H1 | split; [exact H2 |]].
  rewrite (proj2 (billing_at_maximum_keeps_all_valid
                    sample_table Py.None_ 600%Q 600%Q H1 H2)).
  reflexivity.
Defined.

Lemma dropna_cells_In (df : DataFrame) v :
  In v (dropna (map cell_num (map col_Billing_Amount df))) ->
  exists r, In r df /\ Billing_Amount r = Some v.
Proof.
  induction df as [| r df IH]; simpl; [intros [] |].
  unfold col_Billing_Amount at 1.
  destruct (Billing_Amount r) as [b |] eqn:Eb; simpl.
  - intros [<- | H]; [exists r; auto |].
    destruct (IH H) as [r' [H1 H2]]. exists r'; auto.
  - intros H. destruct (IH H) as [r' [H1 H2]]. exists r'; auto.
Qed.

(** X7.  Every value the billing histogram bins is the Billing Amount of a
    row of the table with the selected gender, and none exceeds the
    threshold. *)
Theorem billing_values_within_threshold data selected_gender threshold v :
  In v (output_values (update_billing data selected_gender threshold)) ->
  (v <= threshold)%Q
  /\ exists r, In r (gender_subset data selected_gender)
               /\ Billing_Amount r = Some v.
Proof.
  unfold update_billing, output_values, px_histogram, fig_data.
  rewrite px_groups_None. intros Hv.
  assert (Hin : In v (dropna (map cell_num (map col_Billing_Amount
                        (billing_frame data selected_gender threshold))))).
  { cbn [map flat_map hist_values fst snd] in Hv.
    now rewrite app_nil_r in Hv. }
  destruct (dropna_cells_In _ _ Hin) as [r [Hr Hb]].
  rewrite billing_frame_eq in Hr. apply filter_In in Hr as [Hr Hle].
  rewrite Hb in Hle. simpl in Hle. apply Qle_bool_iff in Hle.
  split; [assumption | exists r; auto].
Qed.

Lemma billing_values_within_threshold_witness :
  In 200%Q (output_values (update_billing sample_table Py.None_ 450%Q))
  /\ (200 <= 450)%Q.
Proof.
  assert (H : In 200%Q
                (output_values (update_billing sample_table Py.None_ 450%Q)))
    by (left; reflexivity).
  split; [exact H |].
  exact (proj1 (billing_values_within_threshold
                  sample_table Py.None_ 450%Q 200%Q H)).
Defined.

(** ** The start-up aggregates against each other *)

Lemma sorted_values_present s x :
  In x (sort_values (dropna s)) <-> In (Some x) s.
Proof. now rewrite sort_values_In, dropna_In. Qed.

Lemma series_min_max_exist s h t :
  sort_values (dropna s) = h :: t ->
  exists top, series_min s = Some h /\ series_max s = Some top.
Proof.
  intros E. unfold series_min, series_max. rewrite E.
  destruct (rev (h :: t)) as [| x l] eqn:Er.
  - apply (f_equal (@List.length Q)) in Er. rewrite length_rev in Er.
    discriminate.
  - exists x. auto.
Qed.

(** Any order statistic lies between the least and the greatest value. *)
Lemma order_statistic_bounds s h t i m top :
  sort_values (dropna s) = h :: t ->
  series_min s = Some m -> series_max s = Some top ->
  (m <= nth i (h :: t) h)%Q /\ (nth i (h :: t) h <= top)%Q.
Proof.
  intros E Hm HM.
  assert (Hin : In (nth i (h :: t) h) (h :: t)).
  { destruct (nth_in_or_default i (h :: t) h) as [H | ->];
      [assumption | now left]. }
  assert (Hs : In (Some (nth i (h :: t) h)) s)
    by (apply sorted_values_present; rewrite E; exact Hin).
  split; [exact (proj2 (series_min_spec _ _ Hm) _ Hs)
         | exact (proj2 (series_max_spec _ _ HM) _ Hs)].
Qed.

Lemma Qmidpoint_bounds (m top a b : Q) :
  (m <= a)%Q -> (a <= top)%Q -> (m <= b)%Q -> (b <= top)%Q ->
  (m <= (a + b) / 2)%Q /\ ((a + b) / 2 <= top)%Q.
Proof.
  intros H1 H2 H3 H4. split.
  - apply Qle_shift_div_l; [reflexivity |].
    apply Qle_trans with (m + m)%Q; [ring_simplify; apply Qle_refl |].
    now apply Qplus_le_compat.
  - apply Qle_shift_div_r; [reflexivity |].
    apply Qle_trans with (top + top)%Q; [| ring_simplify; apply Qle_refl].
    now apply Qplus_le_compat.
Qed.

(** X8.  The slider's initial value, the median, lies within the slider's
    range: whenever the table has a Billing Amount, minimum, maximum and
    median are all defined and minimum <= median <= maximum. *)
Theorem slider_value_within_range data r b :
  In r data -> Billing_Amount r = Some b ->
  exists m d top,
    slider_min (billing_slider data) = Some m
    /\ slider_value (billing_slider data) = Some d
    /\ slider_max (billing_slider data) = Some top
    /\ (m <= d)%Q /\ (d <= top)%Q
    /\ (m <= b)%Q /\ (b <= top)%Q.
Proof.
  intros Hr Hb. cbn [billing_slider slider_min slider_value slider_max].
  set (s := map Billing_Amount data).
  assert (Hin : In (Some b) s) by (rewrite <- Hb; now apply in_map).
  destruct (sort_values (dropna s)) as [| h t] eqn:E.
  { apply sorted_values_present in Hin. rewrite E in Hin. contradiction. }
  destruct (series_min_max_exist s h t E) as [top [Hm HM]].
  assert (Hd : exists d, series_median s = Some d
                         /\ (h <= d)%Q /\ (d <= top)%Q).
  { unfold series_median. rewrite E.
    destruct (Nat.even (List.length (h :: t))).
    - eexists. split; [reflexivity |].
      destruct (order_statistic_bounds s h t
                  (List.length (h :: t) / 2 - 1) h top E Hm HM).
      destruct (order_statistic_bounds s h t
                  (List.length (h :: t) / 2) h top E Hm HM).
      now apply Qmidpoint_bounds.
    - eexists. split; [reflexivity |].
      apply (order_statistic_bounds s h t _ h top E Hm HM). }
  destruct Hd as [d [Hd [Hd1 Hd2]]].
  exists h, d, top. repeat split; try assumption.
  - exact (proj2 (series_min_spec _ _ Hm) _ Hin).
  - exact (proj2 (series_max_spec _ _ HM) _ Hin).
Qed.

Lemma slider_value_within_range_witness :
  exists m d top,
    slider_min (billing_slider sample_table) = Some m
    /\ slider_value (billing_slider sample_table) = Some d
    /\ slider_max (billing_slider sample_table) = Some top
    /\ (m <= d)%Q /\ (d <= top)%Q /\ (m <= 450)%Q /\ (450 <= top)%Q.
Proof.
  apply (slider_value_within_range sample_table
           (mkRow "Male" 47 "Asthma" "Cigna" (Some 450%Q) (mkDate 2020 11 2))
           450%Q).
  - right; right; left; reflexivity.
  - reflexivity.
Defined.

(** ** Admission trends: totals, filter and labels *)

Lemma condition_subset_falsy data v :
  Py.truthy v = false -> condition_subset data v = data.
Proof. unfold condition_subset. now intros ->. Qed.

Lemma trend_frame_eq data v :
  trend_frame data v = groupby_size YearMonth (condition_subset data v).
Proof. reflexivity. Qed.

Lemma count_into_sum k m :
  fold_right Z.add 0 (map snd (count_into k m))
  = fold_right Z.add 0 (map snd m) + 1.
Proof.
  induction m as [| [k0 c] m IH]; cbn [count_into]; [reflexivity |].
  destruct (period_ltb k k0); [| destruct (period_eqb k k0)];
    cbn [map fold_right snd]; try rewrite IH; lia.
Qed.

Lemma groupby_size_sum {R : Type} (key : R -> Period) (df : list R) :
  fold_right Z.add 0 (map snd (groupby_size key df))
  = Z.of_nat (List.length df).
Proof.
  unfold groupby_size.
  assert (H : forall m,
    fold_right Z.add 0
      (map snd (fold_left (fun m r => count_into (key r) m) df m))
    = fold_right Z.add 0 (map snd m) + Z.of_nat (List.length df)).
  { induction df as [| r df IH]; intros m; simpl List.length; simpl fold_left;
      [simpl; lia |].
    rewrite IH, count_into_sum. lia. }
  rewrite H. reflexivity.
Qed.

Lemma points_total_admission data chart_type v :
  points_total (update_admission data chart_type v)
  = fold_right Z.add 0 (map snd (trend_frame data v)).
Proof.
  unfold points_total. rewrite update_admission_points.
  induction (trend_frame data v) as [| [p c] m IH]; simpl; [reflexivity |].
  now rewrite IH.
Qed.

(** X13.  The admission chart loses and invents no row: the heights of its
    points add up to the number of rows of the condition selection, for
    the line and for the bar variant alike. *)
Theorem admission_counts_sum_to_selection data chart_type selected_condition :
  points_total (update_admission data chart_type selected_condition)
  = Z.of_nat (List.length (condition_subset data selected_condition)).
Proof.
  rewrite points_total_admission, trend_frame_eq. apply groupby_size_sum.
Qed.

(** X14.  The chart type changes the kind of the trace and nothing else:
    for any two chart-type values the admission chart has the same points
    in the same order. *)
Theorem chart_type_keeps_points data type1 type2 selected_condition :
  output_points (update_admission data type1 selected_condition)
  = output_points (update_admission data type2 selected_condition).
Proof. now rewrite !update_admission_points. Qed.

(** X15.  A falsy condition value (null, the empty string, zero, false) is
    no filter: the admission chart is the one for the full table. *)
Theorem falsy_condition_uses_full_table data chart_type v :
  Py.truthy v = false ->
  update_admission data chart_type v
  = update_admission data chart_type Py.None_
  /\ points_total (update_admission data chart_type v)
     = Z.of_nat (num_records data).
Proof.
  intros Hf. split.
  - unfold update_admission, trend_frame. now rewrite Hf.
  - rewrite points_total_admission, trend_frame_eq, groupby_size_sum.
    now rewrite condition_subset_falsy.
Qed.

Lemma falsy_condition_uses_full_table_witness :
  Py.truthy (Py.Str "") = false
  /\ points_total (update_admission sample_table (Py.Str "line") (Py.Str ""))
     = 4.
Proof.
  split; [reflexivity |].
  exact (proj2 (falsy_condition_uses_full_table
                  sample_table (Py.Str "line") (Py.Str "") eq_refl)).
Defined.

Lemma select_eq_absent_col (col : Row -> string) data v :
  ~ In v (map (fun r => Py.Str (col r)) data) -> select_eq col v data = [].
Proof.
  intros Habs. apply filter_none. intros r Hr.
  destruct v as [| s | n | b]; simpl; try reflexivity.
  destruct (col r =? s)%string eqn:E; [| reflexivity].
  apply String.eqb_eq in E. exfalso. apply Habs. rewrite <- E.
  now apply (in_map (fun r => Py.Str (col r))).
Qed.

(** X16.  A truthy condition value that no row has gives an admission
    chart with nothing to draw, whatever the chart type: the single bar or
    line trace has empty arrays; an empty chart and not an error. *)
Theorem absent_condition_empty_chart data chart_type v :
  Py.truthy v = true ->
  ~ In v (map (fun r => Py.Str (Medical_Condition r)) data) ->
  update_admission data chart_type v
  = (if is_line chart_type
     then Fig (mkFigure [Scatter "" [] []] "Admission Trends over Time" "")
     else Fig (mkFigure [Bar "" [] []] "Admission Trends over Time"
                 "relative"))
  /\ output_points (update_admission data chart_type v) = [].
Proof.
  intros Ht Habs.
  assert (Hs := select_eq_absent_col Medical_Condition data v Habs).
  unfold update_admission, trend_frame. rewrite Ht, Hs.
  destruct (is_line chart_type); split; reflexivity.
Qed.

Lemma absent_condition_empty_chart_witness :
  Py.truthy (Py.Str "Flu") = true
  /\ ~ In (Py.Str "Flu")
          (map (fun r => Py.Str (Medical_Condition r)) sample_table)
  /\ update_admission sample_table (Py.Str "bar") (Py.Str "Flu")
     = Fig (mkFigure [Bar "" [] []] "Admission Trends over Time" "relative").
Proof.
  assert (H : ~ In (Py.Str "Flu")
                (map (fun r => Py.Str (Medical_Condition r)) sample_table)).
  { simpl. intros H.
    repeat (destruct H as [H | H]; [discriminate H |]). exact H. }
  split; [reflexivity | split; [exact H |]].
  exact (proj1 (absent_condition_empty_chart sample_table (Py.Str "bar")
                  (Py.Str "Flu") eq_refl H)).
Defined.

(** *** Labels *)

Lemma digit_inj a b :
  digit a = digit b -> a mod 10 = b mod 10.
Proof.
  unfold digit. intros H.
  apply (f_equal nat_of_ascii) in H.
  assert (Ha := Z.mod_pos_bound a 10 eq_refl).
  assert (Hb := Z.mod_pos_bound b 10 eq_refl).
  rewrite !nat_ascii_embedding in H by lia. lia.
Qed.

Lemma period_str_inj p q :
  valid_period p -> valid_period q ->
  period_str p = period_str q -> p = q.
Proof.
  destruct p as [y m], q as [y' m']. unfold valid_period, period_str. simpl.
  intros [Hy Hm] [Hy' Hm'] H. inversion H as [[H3 H2 H1 H0 Hm1 Hm0]].
  clear H.
  apply digit_inj in H3, H2, H1, H0, Hm1, Hm0.
  f_equal; Z.to_euclidean_division_equations; lia.
Qed.

Lemma StronglySorted_lt_NoDup (l : list Period) :
  StronglySorted period_lt l -> NoDup l.
Proof.
  induction 1 as [| a l Hl IH Hall]; constructor; [| assumption].
  intros Hin. rewrite Forall_forall in Hall.
  apply (period_lt_irrefl a). now apply Hall.
Qed.

Lemma trend_frame_month_has_row data v p :
  In p (map fst (trend_frame data v)) ->
  exists r, In r (condition_subset data v) /\ YearMonth r = p.
Proof.
  intros Hin. apply in_map_iff in Hin as [[p' c] [Hp Hin]]. simpl in Hp. subst p'.
  destruct (trend_frame_counts data v p c Hin) as [Hc Hpos].
  destruct (rows_in_month p (condition_subset data v)) as [| r rs] eqn:E;
    [simpl in Hc; lia |].
  assert (Hr : In r (rows_in_month p (condition_subset data v)))
    by (rewrite E; now left).
  apply filter_In in Hr as [Hr Heq]. apply period_eqb_spec in Heq.
  exists r. auto.
Qed.

Lemma condition_subset_incl data v r :
  In r (condition_subset data v) -> In r data.
Proof.
  unfold condition_subset, select_eq. destruct (Py.truthy v); [| trivial].
  intros H. now apply filter_In in H.
Qed.

(** X17.  When every admission date of the table is a calendar month of a
    four-digit year, no two points of the admission chart share a label:
    each month of the selection is drawn once, under its own
    [YYYY-MM]. *)
Theorem admission_labels_distinct data chart_type selected_condition :
  (forall r, In r data -> valid_period (YearMonth r)) ->
  NoDup (map fst (output_points
                    (update_admission data chart_type selected_condition))).
Proof.
  intros Hvalid. rewrite update_admission_points, map_map. simpl.
  rewrite <- (map_map fst (fun p => CStr (period_str p))).
  apply NoDup_map_NoDup_ForallPairs.
  - intros p q Hp Hq Heq.
    assert (Hs : period_str p = period_str q) by congruence. clear Heq.
    destruct (trend_frame_month_has_row _ _ _ Hp) as [r [Hr <-]].
    destruct (trend_frame_month_has_row _ _ _ Hq) as [r' [Hr' <-]].
    apply period_str_inj; [| | assumption];
      apply Hvalid; now apply (condition_subset_incl data selected_condition).
  - apply StronglySorted_lt_NoDup, groupby_size_Sorted.
Qed.

Lemma admission_labels_distinct_witness :
  (forall r, In r sample_table -> valid_period (YearMonth r))
  /\ NoDup (map fst (output_points
                       (update_admission sample_table (Py.Str "line")
                                         Py.None_))).
Proof.
  assert (H : forall r, In r sample_table -> valid_period (YearMonth r)).
  { intros r Hr. simpl in Hr.
    repeat (destruct Hr as [<- | Hr]; [unfold valid_period; simpl; lia |]).
    contradiction. }
  split; [exact H |].
  exact (admission_labels_distinct sample_table (Py.Str "line") Py.None_ H).
Defined.

(** ** Age distribution: when there is a chart *)

(** X18.  The age distribution answers with the empty dict exactly when
    the gender selection has no row; in every other case it answers with a
    figure that has at least one series and as many binned values as the
    selection has rows. *)
Theorem age_distribution_empty_iff data selected_gender :
  (update_distribution data selected_gender = EmptyDict <->
     gender_subset data selected_gender = [])
  /\ (forall f, update_distribution data selected_gender = Fig f ->
        fig_data f <> []
        /\ output_marks (Fig f)
           = List.length (gender_subset data selected_gender)).
Proof.
  pose proof (update_distribution_marks data selected_gender) as Hmarks.
  unfold update_distribution in *. fold (gender_subset data selected_gender) in *.
  destruct (gender_subset data selected_gender) as [| r rs] eqn:E.
  - split; [split; reflexivity | discriminate].
  - split; [split; discriminate |].
    intros f Hf. inversion Hf; subst f. clear Hf.
    split; [| exact Hmarks].
    unfold px_histogram, fig_data, px_groups. intros Hnil.
    apply map_eq_nil in Hnil.
    pose proof (grouping_total _ _ _ (group_rows_grouping Gender (r :: rs)) r
                  (or_introl eq_refl)) as Hin.
    rewrite Hnil in Hin. contradiction.
Qed.

(** ** Insurance comparison against billing distribution *)

Lemma update_insurance_marks data g :
  output_marks (update_insurance data g) = List.length (gender_subset data g).
Proof.
  unfold update_insurance. fold (gender_subset data g). apply px_bar_marks.
Qed.

(** X19.  The insurance chart keeps the rows the billing histogram drops:
    with the threshold at or above the slider's maximum, the bars of the
    insurance chart are the values of the billing histogram plus the rows
    of the selection whose Billing Amount is missing. *)
Theorem insurance_bars_exceed_billing_by_missing data selected_gender
        threshold top :
  slider_max (billing_slider data) = Some top ->
  (top <= threshold)%Q ->
  output_marks (update_insurance data selected_gender)
  = (hist_total (update_billing data selected_gender threshold)
     + List.length (filter (fun r => negb (has_billing r))
                           (gender_subset data selected_gender)))%nat.
Proof.
  intros Hmax Hle.
  rewrite update_insurance_marks, update_billing_total.
  rewrite (billing_frame_above_max data selected_gender threshold top Hmax Hle).
  symmetry. apply List.filter_length.
Qed.

Lemma insurance_bars_exceed_billing_by_missing_witness :
  slider_max (billing_slider sample_table) = Some 600%Q
  /\ (600 <= 1000)%Q
  /\ output_marks (update_insurance sample_table Py.None_)
     = (hist_total (update_billing sample_table Py.None_ 1000%Q) + 1)%nat.
Proof.
  assert (H1 : slider_max (billing_slider sample_table) = Some 600%Q)
    by reflexivity.
  assert (H2 : (600 <= 1000)%Q) by discriminate.
  split; [exact H1 | split; [exact H2 |]].
  exact (insurance_bars_exceed_billing_by_missing
           sample_table Py.None_ 1000%Q 600%Q H1 H2).
Defined.

Lemma filter_comm {A : Type} (f g : A -> bool) (l : list A) :
  filter f (filter g l) = filter g (filter f l).
Proof.
  induction l as [| a l IH]; simpl; [reflexivity |].
  destruct (f a) eqn:Ef, (g a) eqn:Eg; simpl; rewrite ?Ef, ?Eg, IH;
    reflexivity.
Qed.

(** X20.  The two filters of the billing distribution commute: applying
    the threshold to the table first and the gender selection second gives
    the same rows, in the same order, as the order the callback uses. *)
Theorem billing_filters_commute data selected_gender threshold :
  billing_frame data selected_gender threshold
  = gender_subset
      (filter (fun r => le_threshold (Billing_Amount r) threshold) data)
      selected_gender.
Proof.
  rewrite billing_frame_eq. unfold gender_subset, select_eq.
  destruct (Py.truthy selected_gender); [apply filter_comm | reflexivity].
Qed.

(** ** The first drawing of the billing histogram *)

Lemma insert_sorted_perm a l : Permutation (a :: l) (insert_sorted a l).
Proof.
  induction l as [| h t IH]; simpl; [reflexivity |].
  destruct (Qle_bool a h); [reflexivity |].
  apply perm_trans with (h :: a :: t); [apply perm_swap | now constructor].
Qed.

Lemma sort_values_perm l : Permutation l (sort_values l).
Proof.
  induction l as [| a l IH]; simpl; [constructor |].
  apply perm_trans with (a :: sort_values l);
    [now constructor | apply insert_sorted_perm].
Qed.

Lemma sorted_nth_mono (v : list Q) (d : Q) (i j : nat) :
  StronglySorted Qle v -> (i <= j)%nat -> (j < List.length v)%nat ->
  (nth i v d <= nth j v d)%Q.
Proof.
  intros Hs. revert i j. induction Hs as [| a l Hl IH Hall]; intros i j Hij Hj.
  - simpl in Hj. lia.
  - destruct i as [| i], j as [| j]; simpl in *.
    + apply Qle_refl.
    + rewrite Forall_forall in Hall. apply Hall. apply nth_In. lia.
    + lia.
    + apply IH; lia.
Qed.

Lemma sorted_count_below (v : list Q) (d : Q) (i : nat) :
  StronglySorted Qle v -> (i < List.length v)%nat ->
  (i + 1 <= List.length (filter (fun x => Qle_bool x (nth i v d)) v))%nat.
Proof.
  intros Hs. revert i. induction Hs as [| a l Hl IH Hall]; intros i Hi.
  - simpl in Hi. lia.
  - destruct i as [| i]; cbn [nth filter].
    + replace (Qle_bool a a) with true
        by (symmetry; apply Qle_bool_iff, Qle_refl).
      simpl. lia.
    + simpl in Hi.
      replace (Qle_bool a (nth i l d)) with true.
      * simpl. specialize (IH i). lia.
      * symmetry. apply Qle_bool_iff. rewrite Forall_forall in Hall.
        apply Hall. apply nth_In. lia.
Qed.

Lemma billing_count_as_values (data : DataFrame) x :
  List.length (filter (fun r => le_threshold (Billing_Amount r) x) data)
  = List.length (filter (fun b => Qle_bool b x)
                        (dropna (map Billing_Amount data))).
Proof.
  induction data as [| r data IH]; simpl; [reflexivity |].
  destruct (Billing_Amount r) as [b |]; simpl; [| assumption].
  destruct (Qle_bool b x); simpl; now rewrite IH.
Qed.

Lemma has_billing_count (data : DataFrame) :
  List.length (filter has_billing data)
  = List.length (dropna (map Billing_Amount data)).
Proof.
  induction data as [| r data IH]; simpl; [reflexivity |].
  unfold has_billing at 1.
  destruct (Billing_Amount r); simpl; now rewrite IH.
Qed.

Lemma Some_inj {A : Type} (a b : A) : Some a = Some b -> a = b.
Proof. now intros [= ->]. Qed.

(** The median has at least half of the values at or below it. *)
Lemma median_covers_half (v : list Q) (h : Q) :
  StronglySorted Qle v -> (1 <= List.length v)%nat ->
  forall d,
    (if Nat.even (List.length v)
     then Some ((nth (List.length v / 2 - 1) v h
                 + nth (List.length v / 2) v h) / 2)%Q
     else Some (nth (List.length v / 2) v h)) = Some d ->
    (List.length v
     <= 2 * List.length (filter (fun x => Qle_bool x d) v))%nat.
Proof.
  intros Hs Hn d Hd. set (n := List.length v) in *.
  assert (Hk : exists k, (k < n)%nat /\ (n <= 2 * (k + 1))%nat
                         /\ (nth k v h <= d)%Q).
  { destruct (Nat.even n) eqn:Ev; apply Some_inj in Hd.
    - apply Nat.even_spec in Ev as [k Hk].
      assert (Hk2 : (n / 2 = k)%nat)
        by (rewrite Hk; rewrite Nat.mul_comm; apply Nat.div_mul; lia).
      rewrite Hk2 in Hd. exists (k - 1)%nat.
      split; [lia |]. split; [lia |].
      assert (Hle : (nth (k - 1) v h <= nth k v h)%Q)
        by (apply sorted_nth_mono; [assumption | lia | fold n; lia]).
      rewrite <- Hd. apply Qle_shift_div_l; [reflexivity |].
      apply Qle_trans with (nth (k - 1) v h + nth (k - 1) v h)%Q;
        [ring_simplify; apply Qle_refl |].
      apply Qplus_le_compat; [apply Qle_refl | assumption].
    - assert (Ho : Nat.odd n = true) by (unfold Nat.odd; now rewrite Ev).
      apply Nat.odd_spec in Ho as [k Hk].
      assert (Hk2 : (n / 2 = k)%nat).
      { rewrite Hk. rewrite Nat.mul_comm.
        rewrite Nat.div_add_l by lia. simpl. lia. }
      rewrite Hk2 in Hd. exists k.
      split; [lia |]. split; [lia |]. rewrite Hd. apply Qle_refl. }
  destruct Hk as [k [Hk1 [Hk2 Hk3]]].
  pose proof (sorted_count_below v h k Hs Hk1) as Hc.
  assert (Hm : (List.length (filter (fun x => Qle_bool x (nth k v h)) v)
                <= List.length (filter (fun x => Qle_bool x d) v))%nat).
  { apply filter_length_mono. intros x Hx.
    apply Qle_bool_iff in Hx. apply Qle_bool_iff.
    now apply Qle_trans with (nth k v h). }
  lia.
Qed.

(** X22.  On the first drawing (no gender selected, the slider at its
    initial value, the median) the billing histogram counts at least half
    of the rows of the table that have a Billing Amount. *)
Theorem initial_billing_histogram_covers_half data d :
  slider_value (billing_slider data) = Some d ->
  choice_value (gender_filter data) = Py.None_
  /\ (List.length (filter has_billing data)
      <= 2 * hist_total (update_billing data
                           (choice_value (gender_filter data)) d))%nat.
Proof.
  cbn [billing_slider slider_value gender_filter choice_value].
  intros Hd. split; [reflexivity |].
  rewrite update_billing_total. unfold billing_frame. simpl Py.truthy. cbv iota.
  rewrite billing_count_as_values, has_billing_count.
  set (l := dropna (map Billing_Amount data)) in *.
  unfold series_median in Hd. fold l in Hd.
  pose proof (sort_values_perm l) as Hp.
  rewrite (Permutation_length Hp).
  rewrite (Permutation_length
             (filter_Permutation (fun b => Qle_bool b d) _ _ Hp)).
  destruct (sort_values l) as [| h t] eqn:E; [discriminate |].
  apply (median_covers_half (h :: t) h); [| simpl; lia | exact Hd].
  rewrite <- E. apply sort_values_sorted.
Qed.

Lemma initial_billing_histogram_covers_half_witness :
  slider_value (billing_slider sample_table) = Some 450%Q
  /\ (3 <= 2 * hist_total (update_billing sample_table Py.None_ 450%Q))%nat.
Proof.
  split; [reflexivity |].
  exact (proj2 (initial_billing_histogram_covers_half sample_table 450%Q
                  eq_refl)).
Defined.

(** ** What a selection can and cannot do *)

Lemma gender_subset_length data g :
  (List.length (gender_subset data g) <= List.length data)%nat.
Proof.
  unfold gender_subset, select_eq.
  destruct (Py.truthy g); [apply List.filter_length_le | lia].
Qed.

(** X24.  Selecting a gender never adds marks to a chart: each of the four
    gender-filtered callbacks draws at most as many marks, and the billing
    histogram counts at most as many rows, as without a selection. *)
Theorem gender_selection_never_adds data selected_gender threshold :
  (output_marks (update_distribution data selected_gender)
   <= output_marks (update_distribution data Py.None_))%nat
  /\ (output_marks (update_medical_condition data selected_gender)
      <= output_marks (update_medical_condition data Py.None_))%nat
  /\ (output_marks (update_insurance data selected_gender)
      <= output_marks (update_insurance data Py.None_))%nat
  /\ (hist_total (update_billing data selected_gender threshold)
      <= hist_total (update_billing data Py.None_ threshold))%nat.
Proof.
  rewrite !update_distribution_marks, !update_medical_condition_marks,
    !update_insurance_marks, !update_billing_total.
  change (gender_subset data Py.None_) with data.
  repeat split; try apply gender_subset_length.
  rewrite !billing_frame_eq. change (gender_subset data Py.None_) with data.
  unfold gender_subset, select_eq.
  destruct (Py.truthy selected_gender); [| lia].
  rewrite filter_comm. apply List.filter_length_le.
Qed.

Lemma rows_in_month_selection data v p :
  (List.length (rows_in_month p (condition_subset data v))
   <= List.length (rows_in_month p data))%nat.
Proof.
  unfold rows_in_month, condition_subset, select_eq.
  destruct (Py.truthy v); [| lia].
  rewrite filter_comm. apply List.filter_length_le.
Qed.

Lemma trend_frame_has_count data v p :
  In p (map fst (trend_frame data v)) ->
  exists c, In (p, c) (trend_frame data v).
Proof.
  intros H. apply in_map_iff in H as [[p' c] [Hp Hin]]. simpl in Hp. subst p'.
  now exists c.
Qed.

(** X25.  Selecting a condition never raises a point of the admission
    chart and never adds a month: every month drawn for a selection is
    drawn for the full table as well, with a count at least as large. *)
Theorem condition_selection_never_raises data selected_condition p c :
  In (p, c) (trend_frame data selected_condition) ->
  exists c', In (p, c') (trend_frame data Py.None_) /\ c <= c'.
Proof.
  intros Hin.
  destruct (trend_frame_counts data selected_condition p c Hin) as [Hc Hpos].
  destruct (trend_frame_month_has_row data selected_condition p)
    as [r [Hr Hp]]; [now apply (in_map fst) in Hin |].
  apply condition_subset_incl in Hr.
  destruct (trend_frame_has_count data Py.None_ p) as [c' Hc'].
  { rewrite <- Hp. now apply (trend_frame_covers data Py.None_ r). }
  exists c'. split; [assumption |].
  destruct (trend_frame_counts data Py.None_ p c' Hc') as [Hc2 _].
  change (condition_subset data Py.None_) with data in Hc2.
  pose proof (rows_in_month_selection data selected_condition p). lia.
Qed.

Lemma condition_selection_never_raises_witness :
  In (mkPeriod 2021 3, 2) (trend_frame sample_table (Py.Str "Diabetes"))
  /\ exists c', In (mkPeriod 2021 3, c') (trend_frame sample_table Py.None_)
                /\ 2 <= c'.
Proof.
  assert (H : In (mkPeriod 2021 3, 2)
                 (trend_frame sample_table (Py.Str "Diabetes")))
    by (right; left; reflexivity).
  split; [exact H |].
  exact (condition_selection_never_raises sample_table (Py.Str "Diabetes")
           (mkPeriod 2021 3) 2 H).
Defined.

(** ** The condition pie *)

Lemma update_medical_condition_labels data g :
  update_medical_condition data g
  = Fig (mkFigure
           [Pie (map col_Medical_Condition (gender_subset data g))]
           "Medical Condiiton Distribution" "").
Proof. reflexivity. Qed.

(** X26.  The condition pie holds one label per row of the gender
    selection, in table order, so that for every Medical Condition it
    holds as many labels as the selection has rows with that condition:
    the share of a sector is the share of its condition among the selected
    rows. *)
Theorem pie_counts_rows_per_condition data selected_gender c :
  pie_labels (update_medical_condition data selected_gender)
  = map col_Medical_Condition (gender_subset data selected_gender)
  /\ List.length
       (filter (label_is c)
               (pie_labels (update_medical_condition data selected_gender)))
     = List.length
         (filter (fun r => (Medical_Condition r =? c)%string)
                 (gender_subset data selected_gender)).
Proof.
  assert (H : pie_labels (update_medical_condition data selected_gender)
              = map col_Medical_Condition (gender_subset data selected_gender)).
  { rewrite update_medical_condition_labels. cbn [pie_labels fig_data].
    cbn [flat_map]. apply app_nil_r. }
  split; [exact H |]. rewrite H. clear H.
  generalize (gender_subset data selected_gender). intros l.
  induction l as [| a l IH]; [reflexivity |].
  cbn [map filter col_Medical_Condition label_is].
  destruct (Medical_Condition a =? c)%string; cbn [List.length];
    now rewrite IH.
Qed.
